(** * ts.performance: marks, measures, reentrant timers and trace events

    A shallow embedding of [src/compiler/performance.ts] and the properties
    of it that the specification states.

    Modelling choices, all read off the source:
    - a JavaScript [number] is an exact rational ([Qc]); NaN, the infinities
      and the rounding of doubles are not modelled.  The statements below
      give a number as the code computes it, by the code's own operations in
      the code's own order; beyond that they use of the numbers only their
      order, that a number less itself is 0, that adding 0 changes nothing,
      and the counting of integers.
      Truthiness of a number is "not zero", of a string "not empty", of
      [undefined] false.  The two counters that only ever move by one,
      [enterCount] and [logDepth], are integers;
    - [Map<number>] is a finite map from strings to numbers ([gmap]); the
      three module-level maps are declared without initialiser, so each is
      an [option]: [None] is JavaScript's [undefined].  A [Map] also keeps
      its keys in the order of their first insertion; the module iterates
      over [measures] only, so that order is kept for [measures] alone.
      [enable()] puts a new [Map] in place of the old one; the old one
      stays as it is for an iteration that is still walking it;
    - the module's [let] variables, the host's observable channels
      (standard output, the profiler hook, the clocks and the random
      source) and the [enterCount] variables captured by timer closures
      form one [World], threaded through a state-and-exception monad [M];
    - an uncaught JavaScript exception is the outcome [Thrown]; the world at
      the point of the throw is kept, as the mutations made before a throw
      persist in JavaScript. *)

From Stdlib Require Import ZArith QArith Qcanon Qround.
From stdpp Require Import base numbers option list strings pretty gmap fin_maps.

Local Open Scope Z_scope.
Set Warnings "-register-all".

(** ** Numbers and truthiness *)

Abbreviation num := Qc.

Definition num_of_Z (z : Z) : num := Qc_of_Z z.

(** [Math.floor] on the modelled numbers. *)
Definition Math_floor (x : num) : Z := Qfloor (this x).

(** [!!x] for a number: every number but zero. *)
Definition truthy_num (x : num) : bool := bool_decide (x ≠ Q2Qc 0).

(** [!!s] for a string: every string but the empty one. *)
Definition truthy_string (s : string) : bool := bool_decide (s ≠ EmptyString).

(** [x || d] for [x : number | undefined] and a number [d]. *)
Definition num_or (x : option num) (d : num) : num :=
  match x with
  | Some v => if truthy_num v then v else d
  | None => d
  end.

(** A JavaScript value, as far as [logTraceEvent(data: any)] and the
    [args] of an event need one. *)
Inductive JsValue : Type :=
  | JsUndefined
  | JsNull
  | JsBool (b : bool)
  | JsNumber (x : num)
  | JsString (s : string)
  | JsArray (items : list JsValue)
  | JsObject (props : list (string * JsValue)).

Definition js_truthy (v : JsValue) : bool :=
  match v with
  | JsUndefined | JsNull => false
  | JsBool b => b
  | JsNumber x => truthy_num x
  | JsString s => truthy_string s
  | JsArray _ | JsObject _ => true
  end.

(** ** The host environment

    What the module reads from its host.  The clocks and the random source
    are given by the value their [k]-th call returns. *)
Record Env : Type := {
  (** [ts.timestamp()], declared outside this file *)
  timestamp_at : nat → num;
  (** [Math.random()] *)
  Math_random_at : nat → num;
  (** [Date.now()] *)
  Date_now_at : nat → num;
  (** the global [onProfilerEvent]: [None] when [typeof onProfilerEvent]
      is not ["function"], otherwise the value of its [profiler] property *)
  onProfilerEvent : option bool;
  (** [JSON.stringify], whose result is [undefined] on some values *)
  JSON_stringify : JsValue → option string
}.

(** ** The state *)

(** The module-level [let] variables (source lines 9-15). *)
Record Facility : Type := {
  enabled : bool;
  profilerStart : num;
  counts : option (gmap string num);
  marks : option (gmap string num);
  measures : option (gmap string num);
  (** the keys of the [Map] that [measures] holds, in insertion order *)
  measuresOrder : list string;
  logDepth : Z;
  isFirstLogEvent : bool
}.

(** What the host observes. *)
Record Host : Type := {
  clockReads : nat;               (* calls of timestamp() so far *)
  randomReads : nat;              (* calls of Math.random() so far *)
  dateReads : nat;                (* calls of Date.now() so far *)
  profilerCalls : list string;    (* arguments given to the profiler hook *)
  stdout : list string            (* lines written by console.log *)
}.

Record World : Type := {
  fac : Facility;
  host : Host;
  (** the [enterCount] variable of each closure made by [createTimer], in
      order of creation *)
  cells : list Z;
  (** the entries of each [Map] that [measures] held before an [enable()]
      replaced it, in order of replacement: the [k]-th [Map] that
      [measures] has held is the one of index [k] here, and the one it holds
      now has the length of this list as its index *)
  retired : list (list (string * num))
}.

Definition with_fac (f : Facility → Facility) (w : World) : World :=
  {| fac := f (fac w); host := host w; cells := cells w; retired := retired w |}.
Definition with_host (f : Host → Host) (w : World) : World :=
  {| fac := fac w; host := f (host w); cells := cells w; retired := retired w |}.
Definition with_cells (f : list Z → list Z) (w : World) : World :=
  {| fac := fac w; host := host w; cells := f (cells w); retired := retired w |}.
Definition with_retired (f : list (list (string * num)) → list (list (string * num)))
    (w : World) : World :=
  {| fac := fac w; host := host w; cells := cells w; retired := f (retired w) |}.

Definition set_enabled (b : bool) (f : Facility) : Facility :=
  {| enabled := b; profilerStart := profilerStart f; counts := counts f;
     marks := marks f; measures := measures f; measuresOrder := measuresOrder f;
     logDepth := logDepth f; isFirstLogEvent := isFirstLogEvent f |}.
Definition set_profilerStart (t : num) (f : Facility) : Facility :=
  {| enabled := enabled f; profilerStart := t; counts := counts f;
     marks := marks f; measures := measures f; measuresOrder := measuresOrder f;
     logDepth := logDepth f; isFirstLogEvent := isFirstLogEvent f |}.
Definition set_counts (m : gmap string num) (f : Facility) : Facility :=
  {| enabled := enabled f; profilerStart := profilerStart f; counts := Some m;
     marks := marks f; measures := measures f; measuresOrder := measuresOrder f;
     logDepth := logDepth f; isFirstLogEvent := isFirstLogEvent f |}.
Definition set_marks (m : gmap string num) (f : Facility) : Facility :=
  {| enabled := enabled f; profilerStart := profilerStart f; counts := counts f;
     marks := Some m; measures := measures f; measuresOrder := measuresOrder f;
     logDepth := logDepth f; isFirstLogEvent := isFirstLogEvent f |}.
Definition set_logDepth (d : Z) (f : Facility) : Facility :=
  {| enabled := enabled f; profilerStart := profilerStart f; counts := counts f;
     marks := marks f; measures := measures f; measuresOrder := measuresOrder f;
     logDepth := d; isFirstLogEvent := isFirstLogEvent f |}.
Definition set_isFirstLogEvent (b : bool) (f : Facility) : Facility :=
  {| enabled := enabled f; profilerStart := profilerStart f; counts := counts f;
     marks := marks f; measures := measures f; measuresOrder := measuresOrder f;
     logDepth := logDepth f; isFirstLogEvent := b |}.

(** The entries of a [Map] with the contents [m] and the keys [order]. *)
Definition map_entries (m : gmap string num) (order : list string) : list (string * num) :=
  omap (λ k, (λ v, (k, v)) <$> m !! k) order.

(** The entries of the [Map] that [measures] holds. *)
Definition measures_entries (f : Facility) : list (string * num) :=
  match measures f with
  | Some m => map_entries m (measuresOrder f)
  | None => []
  end.

(** [measures.set(key, value)]: the value of a key that is there is
    replaced where it stands, a new key goes to the end. *)
Definition measures_set (key : string) (value : num) (f : Facility) : Facility :=
  {| enabled := enabled f; profilerStart := profilerStart f; counts := counts f;
     marks := marks f;
     measures := (λ m, <[key := value]> m) <$> measures f;
     measuresOrder :=
       match measures f with
       | Some m =>
           if decide (is_Some (m !! key)) then measuresOrder f
           else measuresOrder f ++ [key]
       | None => measuresOrder f
       end;
     logDepth := logDepth f; isFirstLogEvent := isFirstLogEvent f |}.

(** [measures = createMap<number>()]: the [Map] that [measures] held, if
    any, is set aside as it is, and [measures] holds a new, empty one. *)
Definition measures_renew (w : World) : World :=
  {| fac :=
       {| enabled := enabled (fac w); profilerStart := profilerStart (fac w);
          counts := counts (fac w); marks := marks (fac w); measures := Some ∅;
          measuresOrder := []; logDepth := logDepth (fac w);
          isFirstLogEvent := isFirstLogEvent (fac w) |};
     host := host w; cells := cells w;
     retired :=
       match measures (fac w) with
       | Some _ => retired w ++ [measures_entries (fac w)]
       | None => retired w
       end |}.

(** The entries of the [Map] of index [obj], as the world has it. *)
Definition object_entries (obj : nat) (w : World) : list (string * num) :=
  if decide (obj = length (retired w)) then measures_entries (fac w)
  else default [] (retired w !! obj).

(** The module right after it is loaded, in a fresh process. *)
Definition initial_facility : Facility :=
  {| enabled := false; profilerStart := Q2Qc 0; counts := None; marks := None;
     measures := None; measuresOrder := []; logDepth := 0; isFirstLogEvent := true |}.
Definition initial_host : Host :=
  {| clockReads := 0; randomReads := 0; dateReads := 0;
     profilerCalls := []; stdout := [] |}.
Definition initial_world : World :=
  {| fac := initial_facility; host := initial_host; cells := []; retired := [] |}.

(** ** The monad *)

Inductive Exn : Type :=
  | DebugFailure (message : string)   (* thrown by Debug.fail *)
  | TypeError.                        (* a property read on undefined *)

Inductive Outcome (A : Type) : Type :=
  | Normal (a : A)
  | Thrown (e : Exn).
Arguments Normal {A} a.
Arguments Thrown {A} e.

Definition M (A : Type) : Type := World → Outcome A * World.

Global Instance M_ret : MRet M := λ A a w, (Normal a, w).
Global Instance M_bind : MBind M := λ A B k c w,
  match c w with
  | (Normal a, w') => k a w'
  | (Thrown e, w') => (Thrown e, w')
  end.

Definition throw {A} (e : Exn) : M A := λ w, (Thrown e, w).
Definition gets {A} (f : World → A) : M A := λ w, (Normal (f w), w).
Definition modify (f : World → World) : M unit := λ w, (Normal tt, f w).

(** Using a module-level map: a [TypeError] while it is [undefined]. *)
Definition the_map (field : Facility → option (gmap string num)) : M (gmap string num) :=
  o ← gets (λ w, field (fac w));
  match o with
  | Some m => mret m
  | None => throw TypeError
  end.

(** Runs the computations of a list in order, stopping at the first throw. *)
Fixpoint sequence_ (cs : list (M unit)) : M unit :=
  match cs with
  | [] => mret tt
  | c :: cs' => c ;; sequence_ cs'
  end.

(** ** The operations of the module *)

Section Performance.

Variable E : Env.

(** *** Host primitives *)

Definition timestamp : M num := λ w,
  (Normal (timestamp_at E (clockReads (host w))),
   with_host (λ h, {| clockReads := S (clockReads h); randomReads := randomReads h;
                      dateReads := dateReads h; profilerCalls := profilerCalls h;
                      stdout := stdout h |}) w).

Definition Math_random : M num := λ w,
  (Normal (Math_random_at E (randomReads (host w))),
   with_host (λ h, {| clockReads := clockReads h; randomReads := S (randomReads h);
                      dateReads := dateReads h; profilerCalls := profilerCalls h;
                      stdout := stdout h |}) w).

Definition Date_now : M num := λ w,
  (Normal (Date_now_at E (dateReads (host w))),
   with_host (λ h, {| clockReads := clockReads h; randomReads := randomReads h;
                      dateReads := S (dateReads h); profilerCalls := profilerCalls h;
                      stdout := stdout h |}) w).

Definition console_log (line : string) : M unit :=
  modify (with_host (λ h, {| clockReads := clockReads h; randomReads := randomReads h;
                             dateReads := dateReads h; profilerCalls := profilerCalls h;
                             stdout := stdout h ++ [line] |})).

(** Source line 7: the host's hook when it is a function whose [profiler]
    property is [true], the empty function otherwise.  Of a call of the
    hook the model keeps its argument. *)
Definition profilerEvent (markName : string) : M unit :=
  match onProfilerEvent E with
  | Some true =>
      modify (with_host (λ h, {| clockReads := clockReads h; randomReads := randomReads h;
                                 dateReads := dateReads h;
                                 profilerCalls := profilerCalls h ++ [markName];
                                 stdout := stdout h |}))
  | _ => mret tt
  end.

(** Modelled from the spec: [Debug.fail] is declared outside this file; the
    spec calls it a fatal assertion failure that halts execution with a
    diagnostic message. *)
Definition Debug_fail {A} (message : string) : M A := throw (DebugFailure message).

(** Modelled from the spec: [noop] is declared outside this file (in
    core.ts); the spec calls it an operation that does nothing. *)
Definition noop : M unit := mret tt.

(** *** Trace events (source lines 126-179) *)

Definition increaseLogDepth : M unit :=
  modify (with_fac (λ f, set_logDepth (logDepth f + 1) f)).

Definition decreaseLogDepth : M unit :=
  modify (with_fac (λ f, set_logDepth (logDepth f - 1) f)).

(** ["  " + s + ","] where [s] may be [undefined]. *)
Definition trace_line (s : option string) : string :=
  "  " +:+ default "undefined" s +:+ ",".

Definition logTraceEvent (data : JsValue) : M unit :=
  first ← gets (λ w, isFirstLogEvent (fac w));
  (if first : bool
   then console_log "[" ;; modify (with_fac (set_isFirstLogEvent false))
   else mret tt) ;;
  console_log (trace_line (JSON_stringify E data)).

Definition logCompleteEvent (name : string) (durationMillis : num) (args : JsValue) : M unit :=
  tid ← gets (λ w, logDepth (fac w));
  now ← Date_now;
  logTraceEvent (JsObject (
    [ ("name", JsString name);
      ("cat", JsString "build");
      ("ph", JsString "X");
      ("pid", JsNumber (num_of_Z 1));
      ("tid", JsNumber (num_of_Z tid));
      ("ts", JsNumber ((now - durationMillis) * num_of_Z 1000)%Qc);
      ("dur", JsNumber (durationMillis * num_of_Z 1000)%Qc) ]
    ++ (if js_truthy args then [("args", args)] else []))).

Definition logSlowEvent (name : string) (durationMillis : num) (args : JsValue) : M unit :=
  if bool_decide (num_of_Z 10 < durationMillis)%Qc then
    r ← Math_random;
    let rand := Math_floor (r * num_of_Z 10000)%Qc in
    logCompleteEvent (name +:+ "-" +:+ pretty rand) durationMillis args
  else mret tt.

(** *** Marks and measures (source lines 52-124) *)

Definition mark (markName : string) : M unit :=
  on ← gets (λ w, enabled (fac w));
  if on : bool then
    ms ← the_map marks;
    t ← timestamp;
    modify (with_fac (set_marks (<[markName := t]> ms))) ;;
    cs ← the_map counts;
    modify (with_fac (set_counts
      (<[markName := (num_or (cs !! markName) (Q2Qc 0) + num_of_Z 1)%Qc]> cs))) ;;
    profilerEvent markName
  else mret tt.

(** [name && marks.get(name)], as far as the [||] that follows looks at
    it: the recorded timestamp when the name is truthy and a mark is
    recorded under it, [undefined] otherwise.  [marks] is read only when
    the name is truthy. *)
Definition name_and_mark (name : option string) : M (option num) :=
  match name with
  | Some n =>
      if truthy_string n then ms ← the_map marks; mret (ms !! n) else mret None
  | None => mret None
  end.

(** [x || c] where the right operand [c] is evaluated only when [x] is
    falsy. *)
Definition or_else (x : option num) (c : M num) : M num :=
  match x with
  | Some v => if truthy_num v then mret v else c
  | None => c
  end.

(** Source lines 76-77: the two [const] of [measure], giving [end - start]. *)
Definition measure_span (startMarkName endMarkName : option string) : M num :=
  end_ ← (x ← name_and_mark endMarkName; or_else x timestamp);
  start ← (x ← name_and_mark startMarkName;
           or_else x (gets (λ w, profilerStart (fac w))));
  mret (end_ - start)%Qc.

Definition measure (measureName : string) (startMarkName endMarkName : option string) : M unit :=
  on ← gets (λ w, enabled (fac w));
  if on : bool then
    d ← measure_span startMarkName endMarkName;
    ms ← the_map measures;
    modify (with_fac (measures_set measureName
      (num_or (ms !! measureName) (Q2Qc 0) + d)%Qc)) ;;
    logSlowEvent measureName d JsUndefined
  else mret tt.

(** [counts && counts.get(markName) || 0] *)
Definition getCount (markName : string) : M num :=
  c ← gets (λ w, counts (fac w));
  mret (num_or (c ≫= (.!! markName)) (Q2Qc 0)).

(** [measures && measures.get(measureName) || 0] *)
Definition getDuration (measureName : string) : M num :=
  c ← gets (λ w, measures (fac w));
  mret (num_or (c ≫= (.!! measureName)) (Q2Qc 0)).

(** [Map.prototype.forEach] on the [Map] of index [obj], from the entry of
    index [index] on: the entries are read anew at each step, so an entry
    that the callback adds is visited too, and the walk ends at the first
    index without entry (the module never deletes an entry).  A walk may
    go on for ever, when each call of the callback adds an entry; [fuel]
    bounds the number of steps, and the result is [None] when it runs
    out. *)
Fixpoint forEach_from (fuel : nat) (callbackfn : string → num → M unit)
    (obj index : nat) : M (option unit) :=
  match fuel with
  | O => mret None
  | S fuel' =>
      entries ← gets (object_entries obj);
      match entries !! index with
      | Some (key, value) =>
          callbackfn key value ;; forEach_from fuel' callbackfn obj (S index)
      | None => mret (Some tt)
      end
  end.

(** [measures.forEach((measure, key) => { cb(key, measure); })], a
    [TypeError] while [measures] is [undefined]. *)
Definition forEachMeasure (fuel : nat) (cb : string → num → M unit) : M (option unit) :=
  the_map measures ;;
  obj ← gets (λ w, length (retired w));
  forEach_from fuel cb obj 0.

(** [createMap<number>()], declared outside this file, is a new, empty
    [Map]. *)
Definition enable : M unit :=
  modify (with_fac (set_counts ∅)) ;;
  modify (with_fac (set_marks ∅)) ;;
  modify measures_renew ;;
  modify (with_fac (set_enabled true)) ;;
  t ← timestamp;
  modify (with_fac (set_profilerStart t)).

Definition disable : M unit :=
  modify (with_fac (set_enabled false)).

(** *** Timers (source lines 17-50) *)

(** The [Timer] interface. *)
Record Timer : Type := { enter : M unit; exit : M unit }.

(** The variable [enterCount] of a closure is the cell of that index.  A
    closure exists only once its cell does; on an index without cell
    (which no timer has) a read gives 0 and a write is lost. *)
Definition read_cell (i : nat) : M Z := gets (λ w, default 0 (cells w !! i)).
Definition write_cell (i : nat) (v : Z) : M unit := modify (with_cells (<[i := v]>)).

(** [++enterCount] and [--enterCount]: the value is the new one. *)
Definition pre_increment (i : nat) : M Z :=
  c ← read_cell i; write_cell i (c + 1) ;; mret (c + 1).
Definition pre_decrement (i : nat) : M Z :=
  c ← read_cell i; write_cell i (c - 1) ;; mret (c - 1).

(** The nested function [enter] of [createTimer]. *)
Definition createTimer_enter (enterCount : nat) (startMarkName : string) : M unit :=
  c ← pre_increment enterCount;
  if bool_decide (c = 1) then mark startMarkName else mret tt.

(** The nested function [exit] of [createTimer]. *)
Definition createTimer_exit (enterCount : nat)
    (measureName startMarkName endMarkName : string) : M unit :=
  c ← pre_decrement enterCount;
  if bool_decide (c = 0) then
    mark endMarkName ;;
    measure measureName (Some startMarkName) (Some endMarkName)
  else
    c' ← read_cell enterCount;
    if bool_decide (c' < 0) then Debug_fail "enter/exit count does not match."
    else mret tt.

(** The object literal [{ enter, exit }] over a given [enterCount]. *)
Definition timer_object (enterCount : nat)
    (measureName startMarkName endMarkName : string) : Timer :=
  {| enter := createTimer_enter enterCount startMarkName;
     exit := createTimer_exit enterCount measureName startMarkName endMarkName |}.

Definition createTimer (measureName startMarkName endMarkName : string) : M Timer :=
  enterCount ← gets (λ w, length (cells w));
  modify (with_cells (λ l, l ++ [0])) ;;
  mret (timer_object enterCount measureName startMarkName endMarkName).

Definition nullTimer : Timer := {| enter := noop; exit := noop |}.

Definition createTimerIf (condition : bool)
    (measureName startMarkName endMarkName : string) : M Timer :=
  if condition then createTimer measureName startMarkName endMarkName
  else mret nullTimer.

(** *** Programs over the module

    A caller of the module, as the sequence of its calls. *)

Inductive TimerCall : Type := Enter | Exit.

Definition call_timer (t : Timer) (c : TimerCall) : M unit :=
  match c with
  | Enter => enter t
  | Exit => exit t
  end.

Definition run_timer (t : Timer) (cs : list TimerCall) : M unit :=
  sequence_ (map (call_timer t) cs).

Inductive Call : Type :=
  | CallEnable
  | CallDisable
  | CallMark (markName : string)
  | CallMeasure (measureName : string) (startMarkName endMarkName : option string)
  | CallIncreaseLogDepth
  | CallDecreaseLogDepth
  | CallLogSlowEvent (name : string) (durationMillis : num) (args : JsValue)
  | CallLogCompleteEvent (name : string) (durationMillis : num) (args : JsValue)
  | CallLogTraceEvent (data : JsValue)
  | CallCreateTimer (measureName startMarkName endMarkName : string)
  (** a call on the timer whose closure holds this cell and these names *)
  | CallTimer (enterCount : nat) (measureName startMarkName endMarkName : string)
      (c : TimerCall).

Definition call (c : Call) : M unit :=
  match c with
  | CallEnable => enable
  | CallDisable => disable
  | CallMark n => mark n
  | CallMeasure n s e => measure n s e
  | CallIncreaseLogDepth => increaseLogDepth
  | CallDecreaseLogDepth => decreaseLogDepth
  | CallLogSlowEvent n d a => logSlowEvent n d a
  | CallLogCompleteEvent n d a => logCompleteEvent n d a
  | CallLogTraceEvent d => logTraceEvent d
  | CallCreateTimer n s e => createTimer n s e ;; mret tt
  | CallTimer i n s e c => call_timer (timer_object i n s e) c
  end.

Definition run (cs : list Call) : M unit := sequence_ (map call cs).

End Performance.

(** * Vocabulary of the statements *)

(** [preserves P c]: whatever the outcome of [c], normal or thrown, the
    world it leaves satisfies [P] when the world it started in did. *)
Definition preserves {A} (P : World → Prop) (c : M A) : Prop :=
  ∀ w, P w → P (c w).2.

(** [never_fails c]: [c] does not reach [Debug.fail]. *)
Definition never_fails {A} (c : M A) : Prop :=
  ∀ w message, (c w).1 ≠ Thrown (DebugFailure message).

(** A property of the world that looks at the timer cells only. *)
Definition on_cells (Q : list Z → Prop) : World → Prop := λ w, Q (cells w).

(** A property that looks at the state of the output framing only. *)
Definition on_trace (Q : bool → list string → Prop) : World → Prop :=
  λ w, Q (isFirstLogEvent (fac w)) (stdout (host w)).

(** A property that looks at the measurement data only. *)
Definition on_data
    (Q : bool → option (gmap string num) → option (gmap string num) →
         option (gmap string num) → Prop) : World → Prop :=
  λ w, Q (enabled (fac w)) (counts (fac w)) (marks (fac w)) (measures (fac w)).

(** The three maps exist: [enable()] has run. *)
Definition initialized : World → Prop :=
  on_data (λ _ cs ms ds, is_Some cs ∧ is_Some ms ∧ is_Some ds).

(** The facility records only once its maps exist. *)
Definition well_formed : World → Prop :=
  on_data (λ on cs ms ds, on = true → is_Some cs ∧ is_Some ms ∧ is_Some ds).

(** The state of a facility on which [enable()] has never run. *)
Definition never_enabled : World → Prop :=
  on_data (λ on cs ms ds, on = false ∧ cs = None ∧ ms = None ∧ ds = None).

(** The output is an opening bracket line followed by record lines, and
    it is empty exactly as long as the first event is still to come. *)
Definition framed : World → Prop :=
  on_trace (λ first out,
    if first then out = []
    else ∃ records : list (option string), out = "[" :: map trace_line records).

(** In every prefix of the calls, starting from a counter [c], the exits
    do not outnumber the enters. *)
Fixpoint balanced_from (c : Z) (cs : list TimerCall) : bool :=
  match cs with
  | [] => true
  | Enter :: cs' => balanced_from (c + 1) cs'
  | Exit :: cs' => bool_decide (0 < c) && balanced_from (c - 1) cs'
  end.

Definition balanced (cs : list TimerCall) : bool := balanced_from 0 cs.

(** The world after a list of calls, in a fresh process. *)
Definition world_after (E : Env) (cs : list Call) : World := (run E cs initial_world).2.

(** The world after one more read of the clock. *)
Definition tick (E : Env) (w : World) : World := (timestamp E w).2.

(** [name && marks.get(name) || fallback], as a value: the recorded
    timestamp when the name is truthy and the timestamp recorded under it
    is, nothing otherwise. *)
Definition truthy_mark (ms : gmap string num) (name : option string) : option num :=
  n ← name;
  if truthy_string n then
    v ← ms !! n; if truthy_num v then Some v else None
  else None.

(** The two timestamps that [measure] resolves, in a world whose marks are
    [ms]. *)
Definition end_timestamp (E : Env) (ms : gmap string num)
    (endMarkName : option string) (w : World) : num :=
  default (timestamp_at E (clockReads (host w))) (truthy_mark ms endMarkName).
Definition start_timestamp (ms : gmap string num)
    (startMarkName : option string) (w : World) : num :=
  default (profilerStart (fac w)) (truthy_mark ms startMarkName).

(** The resolution rule in the words of the specification: the timestamp
    recorded under the name if the name was supplied and has a recorded
    mark, the fallback otherwise. *)
Definition recorded_or (ms : gmap string num) (name : option string) (fallback : num) : num :=
  default fallback (name ≫= (ms !!.)).

(** The object literal that [logCompleteEvent] builds, given the thread
    id and the wall-clock time it reads. *)
Definition event_record (name : string) (durationMillis : num) (args : JsValue)
    (tid : Z) (now : num) : JsValue :=
  JsObject (
    [ ("name", JsString name);
      ("cat", JsString "build");
      ("ph", JsString "X");
      ("pid", JsNumber (num_of_Z 1));
      ("tid", JsNumber (num_of_Z tid));
      ("ts", JsNumber ((now - durationMillis) * num_of_Z 1000)%Qc);
      ("dur", JsNumber (durationMillis * num_of_Z 1000)%Qc) ]
    ++ (if js_truthy args then [("args", args)] else [])).

(** The line that [logTraceEvent] writes for a record. *)
Definition record_line (E : Env) (data : JsValue) : string :=
  trace_line (JSON_stringify E data).

(** The lines that a list of records adds to the output. *)
Definition new_lines (E : Env) (first : bool) (ds : list JsValue) : list string :=
  match ds with
  | [] => []
  | _ :: _ => (if first then ["["] else []) ++ map (record_line E) ds
  end.

(** A host for the examples: a clock that advances by 7 at each read, a
    random source stuck at one third, an active profiler hook, and a
    serialiser that prints the name of an event record. *)
Definition demoEnv : Env :=
  {| timestamp_at := λ k, num_of_Z (7 * Z.of_nat k);
     Math_random_at := λ _, Q2Qc (1 # 3);
     Date_now_at := λ _, num_of_Z 1000;
     onProfilerEvent := Some true;
     JSON_stringify := λ v,
       match v with
       | JsObject (("name", JsString s) :: _) => Some s
       | _ => None
       end |}.

(** A host whose clock stays at 0 for its first two reads, as a clock of
    coarse resolution does right after its origin, and then advances. *)
Definition coarseEnv : Env :=
  {| timestamp_at := λ k, num_of_Z (7 * Z.of_nat (k - 1));
     Math_random_at := λ _, Q2Qc (1 # 3);
     Date_now_at := λ _, num_of_Z 1000;
     onProfilerEvent := None;
     JSON_stringify := λ _, None |}.

(** Whether the host's profiler hook is the one that [mark] calls. *)
Definition hook_active (E : Env) : bool :=
  match onProfilerEvent E with
  | Some true => true
  | _ => false
  end.

(** How often a name occurs in a list of names. *)
Definition occurrences (n : string) (names : list string) : nat :=
  length (filter (λ x, x = n) names).

(** The calls that record: marks, measures, and the creation and the calls
    of timers. *)
Definition is_recording (c : Call) : bool :=
  match c with
  | CallMark _ | CallMeasure _ _ _ | CallCreateTimer _ _ _ | CallTimer _ _ _ _ _ => true
  | _ => false
  end.

(** What a call adds to the nesting depth of the log. *)
Definition depth_of (c : Call) : Z :=
  match c with
  | CallIncreaseLogDepth => 1
  | CallDecreaseLogDepth => -1
  | _ => 0
  end.

Definition depth_change (cs : list Call) : Z := foldr (λ c z, depth_of c + z) 0 cs.

(** The calls of [exit()] on a timer. *)
Definition is_exit (c : Call) : bool :=
  match c with
  | CallTimer _ _ _ _ Exit => true
  | _ => false
  end.

(** The value of the property [p] in a list of properties without
    duplicate names, and in an object. *)
Fixpoint lookup_prop (p : string) (props : list (string * JsValue)) : option JsValue :=
  match props with
  | [] => None
  | (k, v) :: props' => if String.eqb k p then Some v else lookup_prop p props'
  end.

Definition js_prop (p : string) (v : JsValue) : option JsValue :=
  match v with
  | JsObject props => lookup_prop p props
  | _ => None
  end.

(** The names that have a count are the names that have a timestamp, and
    every count is at least 1. *)
Definition tallied : World → Prop :=
  on_data (λ _ cs ms _,
    match cs, ms with
    | Some c, Some m =>
        dom c =@{gset string} dom m ∧ map_Forall (λ _ v, (num_of_Z 1 ≤ v)%Qc) c
    | None, None => True
    | _, _ => False
    end).

(** The keys that [measures] keeps in order are its keys, each once. *)
Definition ordered : World → Prop := λ w,
  match measures (fac w) with
  | Some m =>
      NoDup (measuresOrder (fac w))
      ∧ ∀ k, k ∈ measuresOrder (fac w) ↔ is_Some (m !! k)
  | None => True
  end.

(** A host whose clock advances by 1 at each read, so that the first
    measures of a process are not slow; it has no profiler hook. *)
Definition stepEnv : Env :=
  {| timestamp_at := λ k, num_of_Z (Z.of_nat k);
     Math_random_at := λ _, Q2Qc (1 # 3);
     Date_now_at := λ _, num_of_Z 1000;
     onProfilerEvent := None;
     JSON_stringify := λ _, None |}.

(** * Properties *)

(** ** Stepping through the monad *)

Lemma bind_eq {A B} (c : M A) (k : A → M B) w :
  (c ≫= k) w =
  match c w with
  | (Normal a, w') => k a w'
  | (Thrown e, w') => (Thrown e, w')
  end.
Proof. reflexivity. Qed.

Section Preserves.

Context {A B : Type} (P : World → Prop).

Lemma preserves_ret (a : A) : preserves P (mret a).
Proof. intros w Hw. exact Hw. Qed.

Lemma preserves_throw (e : Exn) : preserves P (throw e : M A).
Proof. intros w Hw. exact Hw. Qed.

Lemma preserves_gets (f : World → A) : preserves P (gets f).
Proof. intros w Hw. exact Hw. Qed.

Lemma preserves_modify (f : World → World) :
  (∀ w, P w → P (f w)) → preserves P (modify f).
Proof. intros Hf w Hw. apply Hf, Hw. Qed.

Lemma preserves_bind (c : M A) (k : A → M B) :
  preserves P c → (∀ a, preserves P (k a)) → preserves P (c ≫= k).
Proof.
  intros Hc Hk w Hw. rewrite bind_eq.
  specialize (Hc w Hw). destruct (c w) as [[a|e] w']; simpl in *.
  - apply Hk, Hc.
  - exact Hc.
Qed.

End Preserves.

Lemma preserves_sequence_ (P : World → Prop) (cs : list (M unit)) :
  Forall (preserves P) cs → preserves P (sequence_ cs).
Proof.
  induction 1 as [|c cs Hc _ IH]; simpl.
  - apply preserves_ret.
  - apply preserves_bind; [exact Hc | intros _; exact IH].
Qed.

Section NeverFails.

Context {A B : Type}.

Lemma never_fails_ret (a : A) : never_fails (mret a).
Proof. intros w m. discriminate. Qed.

Lemma never_fails_gets (f : World → A) : never_fails (gets f).
Proof. intros w m. discriminate. Qed.

Lemma never_fails_modify (f : World → World) : never_fails (modify f).
Proof. intros w m. discriminate. Qed.

Lemma never_fails_TypeError : never_fails (throw TypeError : M A).
Proof. intros w m. discriminate. Qed.

Lemma never_fails_bind (c : M A) (k : A → M B) :
  never_fails c → (∀ a, never_fails (k a)) → never_fails (c ≫= k).
Proof.
  intros Hc Hk w m. rewrite bind_eq.
  specialize (Hc w m). destruct (c w) as [[a|e] w']; simpl in *.
  - apply Hk.
  - intros [= ->]. apply Hc. reflexivity.
Qed.

End NeverFails.

(** Symbolic execution of the primitive steps. *)
Ltac run_m :=
  repeat (progress
    (cbv beta iota zeta delta
       [mbind M_bind mret M_ret throw gets modify the_map read_cell write_cell
        pre_increment pre_decrement timestamp Math_random Date_now console_log];
     cbn [fst snd fac host cells retired with_fac with_host with_cells with_retired
          enabled profilerStart counts marks measures measuresOrder logDepth
          isFirstLogEvent
          set_enabled set_profilerStart set_counts set_marks
          set_logDepth set_isFirstLogEvent measures_renew measures_set
          clockReads randomReads dateReads profilerCalls stdout])).

(** Decomposes a goal [preserves P c] along the structure of [c]; what is
    left are the steps that write. *)
Ltac preserves_step :=
  first
    [ apply preserves_ret
    | apply preserves_throw
    | apply preserves_gets
    | apply preserves_bind; [| intros ?]
    | match goal with
      | |- preserves _ (if ?b then _ else _) => destruct b
      | |- preserves _ (match ?o with Some _ => _ | None => _ end) => destruct o
      end ].

Ltac never_fails_step :=
  first
    [ apply never_fails_ret
    | apply never_fails_TypeError
    | apply never_fails_gets
    | apply never_fails_modify
    | apply never_fails_bind; [| intros ?]
    | match goal with
      | |- never_fails (if ?b then _ else _) => destruct b
      | |- never_fails (match ?o with Some _ => _ | None => _ end) => destruct o
      end ].

(** The operations, down to their steps, in layers. *)
Ltac unfold_timers :=
  unfold call, call_timer, timer_object, createTimer, createTimer_enter, createTimer_exit,
    Debug_fail, noop, enable, disable, increaseLogDepth, decreaseLogDepth,
    pre_increment, pre_decrement, read_cell, write_cell;
  cbn [enter exit].
Ltac unfold_marks :=
  unfold measure, measure_span, name_and_mark, or_else, mark, profilerEvent, the_map.
Ltac unfold_logs := unfold logSlowEvent, logCompleteEvent.
Ltac unfold_trace := unfold logTraceEvent, console_log.
Ltac unfold_ops := unfold_timers; unfold_marks; unfold_logs; unfold_trace.

(** Closes what [preserves_step] leaves, for a property that the writing
    steps keep by computation alone. *)
Ltac leaf :=
  let w := fresh "w" in let Hw := fresh "Hw" in intros w Hw; exact Hw.

(** The same for a property of the measurement data. *)
Ltac data_leaf :=
  let w := fresh "w" in let Hw := fresh "Hw" in
  intros w Hw;
  unfold initialized, well_formed, never_enabled, on_data in *;
  cbn in *; rewrite ?fmap_is_Some, ?fmap_None in *; intuition (discriminate || eauto).

Ltac frame := unfold_ops; repeat preserves_step; leaf.

Ltac no_failure :=
  unfold_ops; repeat never_fails_step;
  let w := fresh "w" in let m := fresh "m" in intros w m; cbn; discriminate.

(** ** How the operations evaluate *)

Section Evaluation.

Variable E : Env.

Lemma mark_disabled markName w :
  enabled (fac w) = false → mark E markName w = (Normal tt, w).
Proof. intros H. unfold mark. run_m. rewrite H. reflexivity. Qed.

Lemma measure_disabled measureName s e w :
  enabled (fac w) = false → measure E measureName s e w = (Normal tt, w).
Proof. intros H. unfold measure. run_m. rewrite H. reflexivity. Qed.

Lemma mark_enabled markName w ms cs :
  enabled (fac w) = true → marks (fac w) = Some ms → counts (fac w) = Some cs →
  mark E markName w =
  profilerEvent E markName
    (with_fac (set_counts (<[markName := (num_or (cs !! markName) (Q2Qc 0) + num_of_Z 1)%Qc]> cs))
       (with_fac (set_marks (<[markName := timestamp_at E (clockReads (host w))]> ms))
          (tick E w))).
Proof.
  intros Hon Hms Hcs. unfold mark. run_m. rewrite Hon, Hms. run_m.
  rewrite Hcs. reflexivity.
Qed.

(** The hook returns, and touches nothing but its own record of calls. *)
Lemma profilerEvent_returns markName w :
  ∃ w', profilerEvent E markName w = (Normal tt, w') ∧ fac w' = fac w ∧ cells w' = cells w
        ∧ stdout (host w') = stdout (host w) ∧ clockReads (host w') = clockReads (host w).
Proof.
  unfold profilerEvent.
  destruct (onProfilerEvent E) as [[]|]; eexists; (split; [reflexivity|]); auto.
Qed.

Lemma or_else_name_and_mark (c : M num) name w ms :
  marks (fac w) = Some ms →
  (x ← name_and_mark name; or_else x c) w =
  match truthy_mark ms name with
  | Some v => (Normal v, w)
  | None => c w
  end.
Proof.
  intros Hms. unfold name_and_mark, truthy_mark, or_else.
  destruct name as [n|]; simpl; [|reflexivity].
  destruct (truthy_string n); [|reflexivity].
  run_m. rewrite Hms. run_m.
  destruct (ms !! n) as [v|]; simpl; [|reflexivity].
  destruct (truthy_num v); reflexivity.
Qed.

Lemma measure_span_eq s e w ms :
  marks (fac w) = Some ms →
  measure_span E s e w =
  (Normal (end_timestamp E ms e w - start_timestamp ms s w)%Qc,
   match truthy_mark ms e with Some _ => w | None => tick E w end).
Proof.
  intros Hms.
  assert (Hms' : marks (fac (tick E w)) = Some ms) by exact Hms.
  unfold measure_span, end_timestamp, start_timestamp.
  rewrite bind_eq, (or_else_name_and_mark _ e w ms Hms).
  destruct (truthy_mark ms e) as [v|]; cbn [default].
  - rewrite bind_eq, (or_else_name_and_mark _ s w ms Hms).
    destruct (truthy_mark ms s); reflexivity.
  - change (timestamp E w) with (Normal (timestamp_at E (clockReads (host w))), tick E w).
    cbv beta iota.
    rewrite bind_eq, (or_else_name_and_mark _ s (tick E w) ms Hms').
    destruct (truthy_mark ms s); reflexivity.
Qed.

Lemma measure_enabled measureName s e w ms m :
  enabled (fac w) = true → marks (fac w) = Some ms → measures (fac w) = Some m →
  let d := (end_timestamp E ms e w - start_timestamp ms s w)%Qc in
  measure E measureName s e w =
  logSlowEvent E measureName d JsUndefined
    (with_fac (measures_set measureName (num_or (m !! measureName) (Q2Qc 0) + d)%Qc)
       (match truthy_mark ms e with Some _ => w | None => tick E w end)).
Proof.
  intros Hon Hms Hm d. unfold measure. run_m. rewrite Hon.
  rewrite (measure_span_eq s e w ms Hms). fold d.
  assert (Hm' : measures (fac (tick E w)) = Some m) by exact Hm.
  destruct (truthy_mark ms e); run_m; rewrite ?Hm, ?Hm'; reflexivity.
Qed.

Lemma logTraceEvent_eq data w :
  ∃ w', logTraceEvent E data w = (Normal tt, w')
    ∧ stdout (host w') =
        stdout (host w) ++ (if isFirstLogEvent (fac w) then ["["] else []) ++ [record_line E data]
    ∧ isFirstLogEvent (fac w') = false.
Proof.
  unfold logTraceEvent, record_line. run_m.
  destruct (isFirstLogEvent (fac w)) eqn:Hfirst; run_m;
    (eexists; split; [reflexivity|]); cbn; rewrite <- ?app_assoc; auto.
Qed.

Lemma logCompleteEvent_eq name d args w :
  logCompleteEvent E name d args w =
  logTraceEvent E
    (event_record name d args (logDepth (fac w)) (Date_now_at E (dateReads (host w))))
    (Date_now E w).2.
Proof. reflexivity. Qed.

Lemma logSlowEvent_fast name d args w :
  ¬ (num_of_Z 10 < d)%Qc → logSlowEvent E name d args w = (Normal tt, w).
Proof. intros H. unfold logSlowEvent. rewrite bool_decide_eq_false_2 by exact H. reflexivity. Qed.

Lemma logSlowEvent_slow name d args w :
  (num_of_Z 10 < d)%Qc →
  logSlowEvent E name d args w =
  logCompleteEvent E
    (name +:+ "-" +:+
       pretty (Math_floor (Math_random_at E (randomReads (host w)) * num_of_Z 10000)%Qc))
    d args (Math_random E w).2.
Proof. intros H. unfold logSlowEvent. rewrite bool_decide_eq_true_2 by exact H. reflexivity. Qed.

Lemma logSlowEvent_returns name d args w :
  ∃ w', logSlowEvent E name d args w = (Normal tt, w').
Proof.
  destruct (decide (num_of_Z 10 < d)%Qc) as [H|H].
  - rewrite (logSlowEvent_slow _ _ _ _ H), logCompleteEvent_eq.
    destruct (logTraceEvent_eq
      (event_record (name +:+ "-" +:+
         pretty (Math_floor (Math_random_at E (randomReads (host w)) * num_of_Z 10000)%Qc))
         d args (logDepth (fac (Math_random E w).2))
         (Date_now_at E (dateReads (host (Math_random E w).2))))
      (Date_now E (Math_random E w).2).2) as (w' & Hw' & _).
    exists w'. exact Hw'.
  - exists w. apply logSlowEvent_fast, H.
Qed.

(** A timer's [enter] and [exit], by the value [c] of its counter. *)
Lemma createTimer_enter_eq i s w c :
  cells w !! i = Some c →
  createTimer_enter E i s w =
  (if bool_decide (c = 0) then mark E s else mret tt) (with_cells (<[i := c + 1]>) w).
Proof.
  intros Hc. unfold createTimer_enter. run_m. rewrite Hc. cbn [default from_option id cells with_cells].
  destruct (decide (c = 0)) as [->|Hne].
  - reflexivity.
  - rewrite (bool_decide_eq_false_2 (c + 1 = 1)) by lia.
    rewrite (bool_decide_eq_false_2 (c = 0)) by lia. reflexivity.
Qed.

Lemma createTimer_exit_eq i measureName s e w c :
  cells w !! i = Some c →
  createTimer_exit E i measureName s e w =
  (if bool_decide (c = 1) then mark E e ;; measure E measureName (Some s) (Some e)
   else if bool_decide (c < 1) then Debug_fail "enter/exit count does not match."
   else mret tt) (with_cells (<[i := c - 1]>) w).
Proof.
  intros Hc. unfold createTimer_exit. run_m. rewrite Hc. cbn [default from_option id cells with_cells].
  destruct (decide (c = 1)) as [->|Hne].
  - reflexivity.
  - rewrite (bool_decide_eq_false_2 (c - 1 = 0)) by lia.
    rewrite (bool_decide_eq_false_2 (c = 1)) by lia.
    run_m. rewrite list_lookup_insert_eq by (eapply lookup_lt_Some; exact Hc).
    cbn [default from_option id cells with_cells].
    destruct (decide (c < 1)).
    + rewrite (bool_decide_eq_true_2 (c - 1 < 0)) by lia.
      rewrite (bool_decide_eq_true_2 (c < 1)) by lia. reflexivity.
    + rewrite (bool_decide_eq_false_2 (c - 1 < 0)) by lia.
      rewrite (bool_decide_eq_false_2 (c < 1)) by lia. reflexivity.
Qed.

End Evaluation.

(** ** What the operations leave alone, and what they keep *)

Section Frames.

Variable E : Env.

Lemma mark_cells Q markName : preserves (on_cells Q) (mark E markName).
Proof. frame. Qed.

Lemma measure_cells Q measureName s e : preserves (on_cells Q) (measure E measureName s e).
Proof. frame. Qed.

Lemma mark_never_fails markName : never_fails (mark E markName).
Proof. no_failure. Qed.

Lemma measure_never_fails measureName s e : never_fails (measure E measureName s e).
Proof. no_failure. Qed.

Lemma logSlowEvent_data Q name d args : preserves (on_data Q) (logSlowEvent E name d args).
Proof. frame. Qed.

(** The framing of the output. *)

Lemma trace_line_not_bracket (s : option string) (b : string) :
  (b = "[" ∨ b = "]") → trace_line s ≠ b.
Proof. intros [-> | ->]; unfold trace_line; discriminate. Qed.

Lemma logTraceEvent_framed data : preserves framed (logTraceEvent E data).
Proof.
  intros w Hw. destruct (logTraceEvent_eq E data w) as (w' & -> & Hout & Hfirst).
  unfold framed, on_trace in *. cbn [snd]. rewrite Hfirst, Hout.
  destruct (isFirstLogEvent (fac w)).
  - rewrite Hw. exists [JSON_stringify E data]. reflexivity.
  - destruct Hw as [records ->]. exists (records ++ [JSON_stringify E data]).
    rewrite map_app. reflexivity.
Qed.

Lemma call_framed (c : Call) : preserves framed (call E c).
Proof.
  destruct c as [| | | | | | | | | |? ? ? ? []];
    unfold_timers; unfold_marks; unfold_logs;
    repeat first
      [ match goal with
        | |- preserves _ (logTraceEvent _ _) => apply logTraceEvent_framed
        end
      | preserves_step ];
    leaf.
Qed.

(** The measurement data. *)

Lemma enable_initialized w : initialized (enable E w).2.
Proof. unfold initialized, on_data. cbn. eauto. Qed.

Lemma enable_well_formed : preserves well_formed (enable E).
Proof. intros w _. unfold well_formed, on_data. cbn. eauto. Qed.

Lemma call_initialized (c : Call) : preserves initialized (call E c).
Proof.
  destruct c as [| | | | | | | | | |? ? ? ? []];
    unfold_ops; repeat preserves_step; data_leaf.
Qed.

Lemma call_well_formed (c : Call) : preserves well_formed (call E c).
Proof.
  destruct c as [| | | | | | | | | |? ? ? ? []];
    try (apply enable_well_formed);
    unfold_ops; repeat preserves_step; data_leaf.
Qed.

Lemma mark_never_enabled markName : preserves never_enabled (mark E markName).
Proof. intros w Hw. rewrite mark_disabled; [exact Hw | apply Hw]. Qed.

Lemma measure_never_enabled measureName s e :
  preserves never_enabled (measure E measureName s e).
Proof. intros w Hw. rewrite measure_disabled; [exact Hw | apply Hw]. Qed.

Lemma call_never_enabled (c : Call) :
  c ≠ CallEnable → preserves never_enabled (call E c).
Proof.
  intros Hc.
  destruct c as [| | | | | | | | | |? ? ? ? []]; [congruence|..];
    unfold_timers;
    repeat first
      [ match goal with
        | |- preserves _ (mark _ _) => apply mark_never_enabled
        | |- preserves _ (measure _ _ _ _) => apply measure_never_enabled
        end
      | preserves_step ];
    unfold_logs; unfold_trace; repeat preserves_step; data_leaf.
Qed.

Lemma run_preserves (P : World → Prop) (cs : list Call) :
  (∀ c, c ∈ cs → preserves P (call E c)) → preserves P (run E cs).
Proof.
  intros H. apply preserves_sequence_, Forall_forall.
  intros c' Hc'. apply list_elem_of_In, in_map_iff in Hc'.
  destruct Hc' as (c & <- & Hc). apply H, list_elem_of_In, Hc.
Qed.

Lemma initial_world_well_formed : well_formed initial_world.
Proof. unfold well_formed, on_data. cbn. discriminate. Qed.

(** Every world that a program reaches is well formed. *)
Lemma world_after_well_formed (cs : list Call) : well_formed (world_after E cs).
Proof.
  exact (run_preserves well_formed cs (λ c _, call_well_formed c)
           initial_world initial_world_well_formed).
Qed.

End Frames.

(** ** Numbers *)

Lemma num_or_default (x : option num) : num_or x (Q2Qc 0) = default (Q2Qc 0) x.
Proof.
  destruct x as [v|]; [|reflexivity]. unfold num_or, truthy_num. cbn.
  case_bool_decide as H; [reflexivity|].
  destruct (decide (v = Q2Qc 0)) as [->|Hne]; [reflexivity | contradiction].
Qed.

Lemma Math_floor_scaled (r : num) (n : Z) :
  (Q2Qc 0 ≤ r)%Qc → (r < Q2Qc 1)%Qc → 0 < n →
  0 ≤ Math_floor (r * num_of_Z n)%Qc < n.
Proof.
  intros H0 H1 Hn. unfold Math_floor, num_of_Z, Qc_of_Z.
  unfold Qcle, Qclt in *. cbn [this Q2Qc Qcmult] in *.
  assert (Hr0 : (0 <= this r)%Q) by (rewrite <- (Qred_correct 0); exact H0).
  assert (Hr1 : (this r < 1)%Q) by (rewrite <- (Qred_correct 1); exact H1).
  rewrite (Qfloor_comp _ _ (Qred_correct _)).
  assert (Hn' : (0 < inject_Z n)%Q) by (rewrite (Zlt_Qlt 0 n) in Hn; exact Hn).
  clear H0 H1. split.
  - rewrite <- (Qfloor_Z 0). apply Qfloor_resp_le.
    apply Qmult_le_0_compat; [exact Hr0 | apply Qlt_le_weak, Hn'].
  - rewrite Zlt_Qlt. eapply Qle_lt_trans; [apply Qfloor_le|].
    rewrite <- (Qmult_1_l (inject_Z n)) at 2.
    apply Qmult_lt_compat_r; assumption.
Qed.

(** ** Reading the results *)

Section Queries.

Variable E : Env.

Lemma getCount_eq markName w :
  getCount markName w = (Normal (default (Q2Qc 0) (counts (fac w) ≫= (.!! markName))), w).
Proof. unfold getCount. run_m. rewrite num_or_default. reflexivity. Qed.

Lemma getDuration_eq measureName w :
  getDuration measureName w =
  (Normal (default (Q2Qc 0) (measures (fac w) ≫= (.!! measureName))), w).
Proof. unfold getDuration. run_m. rewrite num_or_default. reflexivity. Qed.

End Queries.

(** ** The statements of the specification *)

Section Claims.

Variable E : Env.

(** *** Marks while disabled *)

(** C5: while the facility is disabled, [mark(name)] changes nothing: it
    returns, and the world after it is the world before it, so the marks,
    counts and measures, every timestamp and every count are as they were,
    the clock has not been read and the profiler hook has not been
    called. *)
Theorem mark_while_disabled_changes_nothing (markName : string) (w : World) :
  enabled (fac w) = false →
  mark E markName w = (Normal tt, w)
  ∧ (∀ name, getCount name (mark E markName w).2 = getCount name w)
  ∧ profilerCalls (host (mark E markName w).2) = profilerCalls (host w).
Proof.
  intros Hoff. rewrite (mark_disabled E markName w Hoff). auto.
Qed.

(** *** The null timer *)

Lemma run_nullTimer (cs : list TimerCall) (w : World) :
  run_timer nullTimer cs w = (Normal tt, w).
Proof.
  unfold run_timer. induction cs as [|c cs IH]; simpl; [reflexivity|].
  rewrite bind_eq. destruct c; simpl; exact IH.
Qed.

(** C9: [createTimerIf(false, ...)] returns the shared [nullTimer] and
    leaves the world as it is; whatever sequence of [enter()] and [exit()]
    is then run on it, in whatever world (enabled or not), returns normally
    and leaves the world as it is: no mark, count or measure is touched,
    nothing is written, and [exit()] does not fail. *)
Theorem createTimerIf_false_is_inert
    (measureName startMarkName endMarkName : string) (cs : list TimerCall) (w : World) :
  createTimerIf E false measureName startMarkName endMarkName w = (Normal nullTimer, w)
  ∧ run_timer nullTimer cs w = (Normal tt, w)
  ∧ exit nullTimer w = (Normal tt, w).
Proof.
  split; [reflexivity|]. split; [apply run_nullTimer | reflexivity].
Qed.

(** *** Enabling again *)

(** C6: in whatever world, so after any sequence of marks and measures,
    [enable()] returns and leaves the facility enabled, with
    [profilerStart] the time it read and the three maps empty: every count
    and every duration reads 0.  What was recorded before does not add to
    what is recorded after: the first mark of a name counts 1. *)
Theorem enable_resets_all_data (w : World) :
  ∃ w', enable E w = (Normal tt, w')
    ∧ enabled (fac w') = true
    ∧ profilerStart (fac w') = timestamp_at E (clockReads (host w))
    ∧ counts (fac w') = Some ∅ ∧ marks (fac w') = Some ∅ ∧ measures (fac w') = Some ∅
    ∧ (∀ markName, getCount markName w' = (Normal (Q2Qc 0), w'))
    ∧ (∀ measureName, getDuration measureName w' = (Normal (Q2Qc 0), w'))
    ∧ (∀ markName,
         (getCount markName (mark E markName w').2).1 = Normal (num_of_Z 1)).
Proof.
  eexists. split; [reflexivity|]. cbn [fst snd].
  do 5 (split; [reflexivity|]).
  split; [|split].
  - intros n. rewrite getCount_eq. reflexivity.
  - intros n. rewrite getDuration_eq. reflexivity.
  - intros n. erewrite mark_enabled by reflexivity.
    match goal with
    | |- context [profilerEvent E n ?w1] =>
        destruct (profilerEvent_returns E n w1) as (w2 & -> & Hfac & _)
    end.
    rewrite getCount_eq. cbn [fst snd]. rewrite Hfac. cbn.
    rewrite lookup_insert_eq, lookup_empty. cbn.
    f_equal. apply Qcplus_0_l.
Qed.

(** *** Trace events *)

Lemma run_logTraceEvents (ds : list JsValue) (w : World) :
  ∃ w', run E (map CallLogTraceEvent ds) w = (Normal tt, w')
    ∧ stdout (host w') = stdout (host w) ++ new_lines E (isFirstLogEvent (fac w)) ds
    ∧ isFirstLogEvent (fac w') = match ds with [] => isFirstLogEvent (fac w) | _ => false end.
Proof.
  revert w. induction ds as [|d ds IH]; intros w.
  - exists w. split; [reflexivity|]. split; [|reflexivity].
    cbn. rewrite app_nil_r. reflexivity.
  - destruct (logTraceEvent_eq E d w) as (w1 & Hrun & Hout & Hfirst).
    destruct (IH w1) as (w2 & Hrun2 & Hout2 & Hfirst2).
    exists w2. split; [|split].
    + unfold run in *. cbn [map sequence_ call]. rewrite bind_eq, Hrun. exact Hrun2.
    + rewrite Hout2, Hout, Hfirst. cbn [new_lines map]. rewrite <- !app_assoc.
      destruct ds; cbn; rewrite ?app_nil_r; reflexivity.
    + rewrite Hfirst2, Hfirst. destruct ds; reflexivity.
Qed.

Lemma world_after_framed (cs : list Call) : framed (world_after E cs).
Proof.
  exact (run_preserves E framed cs (λ c _, call_framed E c) initial_world eq_refl).
Qed.

(** C8: a call of [logTraceEvent] returns, having written an opening
    bracket line if it is the first call, then its record line, which ends
    in a comma; after it no call is the first.  So a process that only logs
    records [ds] has written one bracket line and then one line per record;
    and whatever a process calls, its output is empty or one opening
    bracket line followed by record lines: no later line is an opening
    bracket and no line is a closing bracket. *)
Theorem logTraceEvent_framing :
  (∀ data w, ∃ w',
      logTraceEvent E data w = (Normal tt, w')
      ∧ stdout (host w') =
          stdout (host w) ++ (if isFirstLogEvent (fac w) then ["["] else [])
            ++ ["  " +:+ default "undefined" (JSON_stringify E data) +:+ ","]
      ∧ isFirstLogEvent (fac w') = false)
  ∧ (∀ d ds,
      stdout (host (world_after E (map CallLogTraceEvent (d :: ds)))) =
      "[" :: map (record_line E) (d :: ds))
  ∧ (∀ cs,
      let out := stdout (host (world_after E cs)) in
      (out = [] ∨ ∃ records, out = "[" :: map trace_line records)
      ∧ ("[" ∉ tail out)
      ∧ ("]" ∉ out)).
Proof.
  split; [|split].
  - intros data w. apply logTraceEvent_eq.
  - intros d ds. unfold world_after.
    destruct (run_logTraceEvents (d :: ds) initial_world) as (w' & -> & Hout & _).
    exact Hout.
  - intros cs out. pose proof (world_after_framed cs) as H.
    unfold framed, on_trace in H. fold out in H.
    assert (Hshape : out = [] ∨ ∃ records, out = "[" :: map trace_line records).
    { destruct (isFirstLogEvent (fac (world_after E cs))); [left | right]; exact H. }
    split; [exact Hshape|].
    destruct Hshape as [-> | [records ->]].
    + split; apply not_elem_of_nil.
    + cbn [tail]. split.
      * intros Hin. apply list_elem_of_fmap in Hin. destruct Hin as (r & Hr & _).
        symmetry in Hr. revert Hr. apply trace_line_not_bracket. left. reflexivity.
      * intros Hin. apply elem_of_cons in Hin. destruct Hin as [Hin | Hin]; [discriminate|].
        apply list_elem_of_fmap in Hin. destruct Hin as (r & Hr & _).
        symmetry in Hr. revert Hr. apply trace_line_not_bracket. right. reflexivity.
Qed.

Lemma logSlowEvent_slow_output name d args w :
  (num_of_Z 10 < d)%Qc →
  ∃ w', logSlowEvent E name d args w = (Normal tt, w')
    ∧ stdout (host w') =
        stdout (host w) ++ (if isFirstLogEvent (fac w) then ["["] else [])
          ++ [record_line E
                (event_record
                   (name +:+ "-" +:+
                      pretty (Math_floor (Math_random_at E (randomReads (host w))
                                          * num_of_Z 10000)%Qc))
                   d args (logDepth (fac w)) (Date_now_at E (dateReads (host w))))].
Proof.
  intros Hslow. rewrite (logSlowEvent_slow E _ _ _ _ Hslow), logCompleteEvent_eq.
  match goal with
  | |- context [logTraceEvent E ?data ?w1] =>
      destruct (logTraceEvent_eq E data w1) as (w' & -> & Hout & _)
  end.
  exists w'. split; [reflexivity | exact Hout].
Qed.

(** C7: [logSlowEvent] returns, and it writes to the output exactly when
    [durationMillis] is greater than 10: at 10 the world is left as it is,
    at 10.01 a line is written.  When it writes, the line is that of a
    complete event whose name is the given name, a dash and an integer of
    [0, 10000), as long as [Math.random()] is in [0, 1). *)
Theorem logSlowEvent_threshold (name : string) (durationMillis : num) (args : JsValue)
    (w : World) :
  (∀ k, (Q2Qc 0 ≤ Math_random_at E k)%Qc ∧ (Math_random_at E k < Q2Qc 1)%Qc) →
  let w' := (logSlowEvent E name durationMillis args w).2 in
  (logSlowEvent E name durationMillis args w).1 = Normal tt
  ∧ (stdout (host w') ≠ stdout (host w) ↔ (num_of_Z 10 < durationMillis)%Qc)
  ∧ (¬ (num_of_Z 10 < durationMillis)%Qc → w' = w)
  ∧ ((num_of_Z 10 < durationMillis)%Qc →
     ∃ rand : Z, 0 ≤ rand < 10000
       ∧ stdout (host w') =
           stdout (host w) ++ (if isFirstLogEvent (fac w) then ["["] else [])
             ++ [record_line E
                   (event_record (name +:+ "-" +:+ pretty rand) durationMillis args
                      (logDepth (fac w)) (Date_now_at E (dateReads (host w))))])
  ∧ logSlowEvent E name (num_of_Z 10) args w = (Normal tt, w)
  ∧ stdout (host (logSlowEvent E name (Q2Qc (1001 # 100)) args w).2) ≠ stdout (host w).
Proof.
  intros Hrandom w'.
  assert (Hgrows : ∀ d, (num_of_Z 10 < d)%Qc →
            stdout (host (logSlowEvent E name d args w).2) ≠ stdout (host w)).
  { intros d Hd. destruct (logSlowEvent_slow_output name d args w Hd) as (w1 & -> & Hout).
    cbn [snd]. rewrite Hout. intros Heq. rewrite <- (app_nil_r (stdout (host w))) in Heq at 2.
    apply app_inv_head in Heq. destruct (isFirstLogEvent (fac w)); discriminate Heq. }
  split; [|split; [|split; [|split; [|split]]]].
  - destruct (logSlowEvent_returns E name durationMillis args w) as (w1 & ->). reflexivity.
  - split.
    + intros Hne. destruct (decide (num_of_Z 10 < durationMillis)%Qc) as [Hd|Hd]; [exact Hd|].
      exfalso. apply Hne. unfold w'. rewrite (logSlowEvent_fast E _ _ _ _ Hd). reflexivity.
    + apply Hgrows.
  - intros Hd. unfold w'. rewrite (logSlowEvent_fast E _ _ _ _ Hd). reflexivity.
  - intros Hd. destruct (logSlowEvent_slow_output name durationMillis args w Hd) as (w1 & Hrun & Hout).
    eexists. split; [|unfold w'; rewrite Hrun; exact Hout].
    destruct (Hrandom (randomReads (host w))) as [H0 H1].
    apply Math_floor_scaled; [exact H0 | exact H1 | lia].
  - apply logSlowEvent_fast. apply Qcle_not_lt, Qcle_refl.
  - apply Hgrows. reflexivity.
Qed.

(** *** Measures *)

(** What one [measure] does to an enabled facility: it returns, leaves the
    flag and the marks as they are, and adds the span to the measure. *)
Lemma measure_adds measureName s e w ms m :
  enabled (fac w) = true → marks (fac w) = Some ms → measures (fac w) = Some m →
  ∃ d wa w',
    measure_span E s e w = (Normal d, wa)
    ∧ d = (end_timestamp E ms e w - start_timestamp ms s w)%Qc
    ∧ measure E measureName s e w = (Normal tt, w')
    ∧ enabled (fac w') = true
    ∧ marks (fac w') = Some ms
    ∧ measures (fac w') =
        Some (<[measureName := (default (Q2Qc 0) (m !! measureName) + d)%Qc]> m).
Proof.
  intros Hon Hms Hm.
  exists (end_timestamp E ms e w - start_timestamp ms s w)%Qc,
    (match truthy_mark ms e with Some _ => w | None => tick E w end).
  rewrite (measure_enabled E measureName s e w ms m Hon Hms Hm). cbv zeta.
  rewrite num_or_default.
  match goal with
  | |- context [logSlowEvent E ?n ?d ?a ?w1] =>
      pose proof (logSlowEvent_data E
        (λ on _ mk ds, on = enabled (fac w1) ∧ mk = marks (fac w1) ∧ ds = measures (fac w1))
        n d a w1 (conj eq_refl (conj eq_refl eq_refl))) as (Hon' & Hms' & Hm');
      destruct (logSlowEvent_returns E n d a w1) as (w' & Hrun)
  end.
  rewrite Hrun in *. cbn [snd] in *. exists w'.
  split; [apply (measure_span_eq E s e w ms Hms)|]. do 2 (split; [reflexivity|]).
  unfold on_data in *. rewrite Hon', Hms', Hm'.
  destruct (truthy_mark ms e); unfold tick; cbn; rewrite Hm; cbn; auto.
Qed.

(** C4: on an enabled facility, two calls of [measure] with the same name
    return, and when [d1] and [d2] are the spans that they compute, the
    duration of the name is afterwards what it was before, plus [d1], plus
    [d2]; for a name not measured before it is [d1 + d2]. *)
Theorem measure_accumulates (measureName : string) (s1 e1 s2 e2 : option string)
    (w : World) (ms m : gmap string num) :
  enabled (fac w) = true → marks (fac w) = Some ms → measures (fac w) = Some m →
  ∃ (d0 d1 d2 : num) (wa w1 wb w2 : World),
    getDuration measureName w = (Normal d0, w)
    ∧ measure_span E s1 e1 w = (Normal d1, wa)
    ∧ measure E measureName s1 e1 w = (Normal tt, w1)
    ∧ measure_span E s2 e2 w1 = (Normal d2, wb)
    ∧ measure E measureName s2 e2 w1 = (Normal tt, w2)
    ∧ getDuration measureName w1 = (Normal (d0 + d1)%Qc, w1)
    ∧ getDuration measureName w2 = (Normal (d0 + d1 + d2)%Qc, w2)
    ∧ (m !! measureName = None → getDuration measureName w2 = (Normal (d1 + d2)%Qc, w2)).
Proof.
  intros Hon Hms Hm.
  destruct (measure_adds measureName s1 e1 w ms m Hon Hms Hm)
    as (d1 & wa & w1 & Hspan1 & _ & Hrun1 & Hon1 & Hms1 & Hm1).
  destruct (measure_adds measureName s2 e2 w1 ms _ Hon1 Hms1 Hm1)
    as (d2 & wb & w2 & Hspan2 & _ & Hrun2 & Hon2 & Hms2 & Hm2).
  rewrite lookup_insert_eq in Hm2. cbn [default from_option id] in Hm2.
  exists (default (Q2Qc 0) (m !! measureName)), d1, d2, wa, w1, wb, w2.
  split; [rewrite getDuration_eq, Hm; reflexivity|].
  do 4 (split; [assumption|]).
  split; [|split].
  - rewrite getDuration_eq, Hm1. cbn. rewrite lookup_insert_eq. reflexivity.
  - rewrite getDuration_eq, Hm2. cbn. rewrite lookup_insert_eq. reflexivity.
  - intros Hnew. rewrite getDuration_eq, Hm2. cbn. rewrite lookup_insert_eq, Hnew. cbn.
    rewrite Qcplus_0_l. reflexivity.
Qed.

(** *** Timers *)

Lemma with_cells_insert_insert i (a b : Z) w :
  with_cells (<[i := b]>) (with_cells (<[i := a]>) w) = with_cells (<[i := b]>) w.
Proof. unfold with_cells. cbn. rewrite list_insert_insert_eq. reflexivity. Qed.

Lemma with_cells_insert_id i (c : Z) w :
  cells w !! i = Some c → with_cells (<[i := c]>) w = w.
Proof.
  intros H. destruct w as [f h l]. unfold with_cells. cbn in *.
  rewrite (list_insert_id l i c H). reflexivity.
Qed.

Lemma fresh_cell (w : World) :
  cells (with_cells (λ l, l ++ [0]) w) !! length (cells w) = Some 0.
Proof. cbn. apply list_lookup_middle. reflexivity. Qed.

Lemma lookup_with_cells_insert i (a c : Z) w :
  cells w !! i = Some c → cells (with_cells (<[i := a]>) w) !! i = Some a.
Proof. intros H. cbn. apply list_lookup_insert_eq. eapply lookup_lt_Some, H. Qed.

(** [mark] and [measure] do not touch the cells, whatever their outcome. *)
Lemma mark_same_cells markName w : cells (mark E markName w).2 = cells w.
Proof. exact (mark_cells E (λ l, l = cells w) markName w eq_refl). Qed.

Lemma mark_measure_same_cells measureName s e w :
  cells ((mark E e ;; measure E measureName (Some s) (Some e)) w).2 = cells w.
Proof.
  refine (preserves_bind (on_cells (λ l, l = cells w)) _ _ _ _ w eq_refl).
  - apply mark_cells.
  - intros _. apply measure_cells.
Qed.

(** Inside an active timer, a nested [enter(); exit()] leaves the whole
    world as it is. *)
Lemma nested_enter_exit i measureName s e w c :
  cells w !! i = Some c → 0 < c →
  (createTimer_enter E i s ;; createTimer_exit E i measureName s e) w = (Normal tt, w).
Proof.
  intros Hc Hpos. rewrite bind_eq.
  rewrite (createTimer_enter_eq E i s w c Hc).
  rewrite (bool_decide_eq_false_2 (c = 0)) by lia.
  unfold mret, M_ret. cbv beta iota.
  rewrite (createTimer_exit_eq E i measureName s e _ (c + 1))
    by (eapply lookup_with_cells_insert, Hc).
  rewrite (bool_decide_eq_false_2 (c + 1 = 1)) by lia.
  rewrite (bool_decide_eq_false_2 (c + 1 < 1)) by lia.
  rewrite with_cells_insert_insert.
  replace (c + 1 - 1) with c by lia.
  rewrite (with_cells_insert_id i c w Hc). reflexivity.
Qed.

(** C1: the timer that [createTimer] returns starts with its counter at
    0.  Wherever the counter is 0, [enter(); enter(); exit()] has the
    outcome and leaves the world of the first [enter()] alone: the nested
    pair records no mark and no measure, and the counter is 1 afterwards.
    The next [exit()] then takes the counter to 0, records
    [mark(endMarkName)] and then [measure(measureName, startMarkName,
    endMarkName)].  In general, with the counter at [c], [enter()] records
    the start mark exactly when [c] is 0, and [exit()] records the end mark
    and the measure when [c] is 1 and nothing when [c] is greater. *)
Theorem timer_records_on_outermost_calls
    (measureName startMarkName endMarkName : string) (w : World) :
  let i := length (cells w) in
  let t := timer_object E i measureName startMarkName endMarkName in
  let w0 := with_cells (λ l, l ++ [0]) w in
  createTimer E measureName startMarkName endMarkName w = (Normal t, w0)
  ∧ cells w0 !! i = Some 0
  ∧ (∀ w', cells w' !! i = Some 0 →
       (enter t ;; enter t ;; exit t) w' = enter t w'
       ∧ (∀ w1, (enter t ;; enter t ;; exit t) w' = (Normal tt, w1) →
            cells w1 !! i = Some 1
            ∧ exit t w1 =
                (mark E endMarkName ;;
                 measure E measureName (Some startMarkName) (Some endMarkName))
                  (with_cells (<[i := 0]>) w1)))
  ∧ (∀ c w', cells w' !! i = Some c →
       enter t w' =
         (if bool_decide (c = 0) then mark E startMarkName else mret tt)
           (with_cells (<[i := c + 1]>) w')
       ∧ (1 < c → exit t w' = (Normal tt, with_cells (<[i := c - 1]>) w'))
       ∧ (c = 1 →
          exit t w' =
            (mark E endMarkName ;;
             measure E measureName (Some startMarkName) (Some endMarkName))
              (with_cells (<[i := 0]>) w'))).
Proof.
  intros i t w0.
  assert (Henter : ∀ w', cells w' !! i = Some 0 →
            enter t w' = mark E startMarkName (with_cells (<[i := 1]>) w')).
  { intros w' Hc. cbn [enter t timer_object].
    rewrite (createTimer_enter_eq E i _ w' 0 Hc). reflexivity. }
  assert (Hafter : ∀ w' o w1, cells w' !! i = Some 0 →
            enter t w' = (o, w1) → cells w1 !! i = Some 1).
  { intros w' o w1 Hc H. rewrite (Henter w' Hc) in H.
    pose proof (mark_same_cells startMarkName (with_cells (<[i := 1]>) w')) as Hsame.
    rewrite H in Hsame. cbn [snd] in Hsame. rewrite Hsame.
    eapply lookup_with_cells_insert, Hc. }
  assert (Hseq : ∀ w', cells w' !! i = Some 0 →
            (enter t ;; enter t ;; exit t) w' = enter t w').
  { intros w' Hc. rewrite bind_eq.
    destruct (enter t w') as [[[]|ex] w1] eqn:H1; [|reflexivity].
    apply (nested_enter_exit i measureName startMarkName endMarkName w1 1);
      [eapply Hafter; [exact Hc | exact H1] | lia]. }
  split; [reflexivity|]. split; [apply fresh_cell|]. split.
  - intros w' Hc0. split; [apply Hseq, Hc0|].
    intros w1 Hrun. rewrite (Hseq w' Hc0) in Hrun.
    pose proof (Hafter _ _ _ Hc0 Hrun) as Hc. split; [exact Hc|].
    cbn [exit t timer_object]. rewrite (createTimer_exit_eq E i _ _ _ w1 1 Hc). reflexivity.
  - intros c w' Hc. split; [|split].
    + apply createTimer_enter_eq, Hc.
    + intros Hgt. cbn [exit t timer_object]. rewrite (createTimer_exit_eq E i _ _ _ w' c Hc).
      rewrite (bool_decide_eq_false_2 (c = 1)) by lia.
      rewrite (bool_decide_eq_false_2 (c < 1)) by lia. reflexivity.
    + intros ->. cbn [exit t timer_object].
      rewrite (createTimer_exit_eq E i _ _ _ w' 1 Hc). reflexivity.
Qed.

(** [mark] and [measure] return on a well-formed world. *)
Lemma mark_returns markName w :
  well_formed w → ∃ w', mark E markName w = (Normal tt, w').
Proof.
  intros Hwf. destruct (enabled (fac w)) eqn:Hon.
  - destruct (Hwf Hon) as ([cs Hcs] & [ms Hms] & _).
    rewrite (mark_enabled E markName w ms cs Hon Hms Hcs).
    match goal with
    | |- context [profilerEvent E markName ?w1] =>
        destruct (profilerEvent_returns E markName w1) as (w' & -> & _)
    end.
    exists w'. reflexivity.
  - exists w. apply mark_disabled, Hon.
Qed.

Lemma measure_returns measureName s e w :
  well_formed w → ∃ w', measure E measureName s e w = (Normal tt, w').
Proof.
  intros Hwf. destruct (enabled (fac w)) eqn:Hon.
  - destruct (Hwf Hon) as (_ & [ms Hms] & [m Hm]).
    destruct (measure_adds measureName s e w ms m Hon Hms Hm) as (d & wa & w' & _ & _ & -> & _).
    exists w'. reflexivity.
  - exists w. apply measure_disabled, Hon.
Qed.

(** One call on a timer whose counter is [c], an [exit()] only when [c]
    is positive: the counter moves by one, the outcome is not a failure of
    [Debug.fail], and it is normal on a well-formed world, which stays so. *)
Lemma call_timer_balanced i measureName s e (tc : TimerCall) w c :
  cells w !! i = Some c → (tc = Exit → 0 < c) →
  ∃ o w',
    call_timer (timer_object E i measureName s e) tc w = (o, w')
    ∧ cells w' !! i = Some (match tc with Enter => c + 1 | Exit => c - 1 end)
    ∧ (∀ message, o ≠ Thrown (DebugFailure message))
    ∧ (well_formed w → o = Normal tt ∧ well_formed w').
Proof.
  intros Hc Hpos. destruct tc; cbn [call_timer enter exit timer_object].
  - rewrite (createTimer_enter_eq E i s w c Hc).
    set (w1 := with_cells (<[i := c + 1]>) w).
    assert (Hc1 : cells w1 !! i = Some (c + 1)) by (eapply lookup_with_cells_insert, Hc).
    destruct (bool_decide (c = 0)).
    + destruct (mark E s w1) as [o w'] eqn:Hrun. exists o, w'.
      split; [reflexivity|]. split; [|split].
      * pose proof (mark_same_cells s w1) as H. rewrite Hrun in H. cbn [snd] in H.
        rewrite H. exact Hc1.
      * intros message. pose proof (mark_never_fails E s w1 message) as H.
        rewrite Hrun in H. exact H.
      * intros Hwf. destruct (mark_returns s w1 Hwf) as (w2 & Hw2).
        pose proof (call_well_formed E (CallMark s) w1 Hwf) as H. cbn [call] in H.
        rewrite Hrun in H. rewrite Hw2 in Hrun. injection Hrun as <- <-. auto.
    + exists (Normal tt), w1. split; [reflexivity|]. split; [exact Hc1|].
      split; [discriminate | auto].
  - specialize (Hpos eq_refl).
    rewrite (createTimer_exit_eq E i measureName s e w c Hc).
    set (w1 := with_cells (<[i := c - 1]>) w).
    assert (Hc1 : cells w1 !! i = Some (c - 1)) by (eapply lookup_with_cells_insert, Hc).
    rewrite (bool_decide_eq_false_2 (c < 1)) by lia.
    destruct (bool_decide (c = 1)).
    + destruct ((mark E e ;; measure E measureName (Some s) (Some e)) w1) as [o w'] eqn:Hrun.
      exists o, w'. split; [reflexivity|]. split; [|split].
      * pose proof (mark_measure_same_cells measureName s e w1) as H.
        rewrite Hrun in H. cbn [snd] in H. rewrite H. exact Hc1.
      * intros message.
        pose proof (never_fails_bind (mark E e) (λ _, measure E measureName (Some s) (Some e))
          (mark_never_fails E e) (λ _, measure_never_fails E measureName (Some s) (Some e))
          w1 message) as H.
        rewrite Hrun in H. exact H.
      * intros Hwf. rewrite bind_eq in Hrun.
        destruct (mark_returns e w1 Hwf) as (w2 & Hw2).
        pose proof (call_well_formed E (CallMark e) w1 Hwf) as Hwf2. cbn [call] in Hwf2.
        rewrite Hw2 in Hrun, Hwf2. cbn [snd] in Hwf2.
        destruct (measure_returns measureName (Some s) (Some e) w2 Hwf2) as (w3 & Hw3).
        pose proof (call_well_formed E (CallMeasure measureName (Some s) (Some e)) w2 Hwf2) as H.
        cbn [call] in H. rewrite Hw3 in Hrun, H. injection Hrun as <- <-. auto.
    + exists (Normal tt), w1. split; [reflexivity|]. split; [exact Hc1|].
      split; [discriminate | auto].
Qed.

Lemma run_timer_balanced i measureName s e (cs : list TimerCall) :
  ∀ w c, cells w !! i = Some c → 0 ≤ c → balanced_from c cs = true →
  (∀ message, (run_timer (timer_object E i measureName s e) cs w).1
              ≠ Thrown (DebugFailure message))
  ∧ (well_formed w → ∃ w', run_timer (timer_object E i measureName s e) cs w = (Normal tt, w')).
Proof.
  unfold run_timer. induction cs as [|tc cs IH]; intros w c Hc Hc0 Hbal.
  - split; [discriminate|]. intros _. exists w. reflexivity.
  - cbn [map sequence_]. rewrite bind_eq.
    assert (Hstep : (tc = Exit → 0 < c)
                    ∧ 0 ≤ match tc with Enter => c + 1 | Exit => c - 1 end
                    ∧ balanced_from (match tc with Enter => c + 1 | Exit => c - 1 end) cs = true).
    { destruct tc; cbn [balanced_from] in Hbal.
      - split; [discriminate|]. split; [lia | exact Hbal].
      - apply andb_true_iff in Hbal. destruct Hbal as [Hpos Hbal].
        apply bool_decide_eq_true_1 in Hpos. split; [auto|]. split; [lia | exact Hbal]. }
    destruct Hstep as (Hpos & Hc0' & Hbal').
    destruct (call_timer_balanced i measureName s e tc w c Hc Hpos)
      as (o & w1 & -> & Hc1 & Hnf & Hwf).
    destruct (IH w1 _ Hc1 Hc0' Hbal') as [IHnf IHwf].
    split.
    + intros message. destruct o as [[]|ex]; [apply IHnf | apply Hnf].
    + intros Hw. destruct (Hwf Hw) as [-> Hw1]. apply IHwf, Hw1.
Qed.

(** C2: on the timer that [createTimer] returns, an [exit()] with no
    [enter()] before it ends in the failure of [Debug.fail], with its
    message, thrown and not returned, and it leaves the counter at -1, not
    clamped; so does every [exit()] at a counter that is not positive.  In
    a sequence of calls in which no prefix has more exits than the enters
    still open, the failure is not reached, and on a well-formed world the
    sequence returns. *)
Theorem exit_without_enter_fails
    (measureName startMarkName endMarkName : string) (w : World) :
  let i := length (cells w) in
  let t := timer_object E i measureName startMarkName endMarkName in
  let w0 := with_cells (λ l, l ++ [0]) w in
  createTimer E measureName startMarkName endMarkName w = (Normal t, w0)
  ∧ exit t w0 =
      (Thrown (DebugFailure "enter/exit count does not match."),
       with_cells (<[i := -1]>) w0)
  ∧ (∀ c w', cells w' !! i = Some c → c ≤ 0 →
       exit t w' =
         (Thrown (DebugFailure "enter/exit count does not match."),
          with_cells (<[i := c - 1]>) w'))
  ∧ (∀ cs, balanced cs = true →
       (∀ message, (run_timer t cs w0).1 ≠ Thrown (DebugFailure message))
       ∧ (well_formed w → ∃ w1, run_timer t cs w0 = (Normal tt, w1)))
  ∧ (∀ cs c w', cells w' !! i = Some c → 0 ≤ c → balanced_from c cs = true →
       (∀ message, (run_timer t cs w').1 ≠ Thrown (DebugFailure message))
       ∧ (well_formed w' → ∃ w1, run_timer t cs w' = (Normal tt, w1))).
Proof.
  intros i t w0.
  assert (Hfresh : cells w0 !! i = Some 0) by apply fresh_cell.
  assert (Hfail : ∀ c w', cells w' !! i = Some c → c ≤ 0 →
            exit t w' =
              (Thrown (DebugFailure "enter/exit count does not match."),
               with_cells (<[i := c - 1]>) w')).
  { intros c w' Hc Hle. cbn [exit t timer_object].
    rewrite (createTimer_exit_eq E i _ _ _ w' c Hc).
    rewrite (bool_decide_eq_false_2 (c = 1)) by lia.
    rewrite (bool_decide_eq_true_2 (c < 1)) by lia. reflexivity. }
  split; [reflexivity|]. split; [apply (Hfail 0 w0 Hfresh); lia|]. split; [exact Hfail|].
  split.
  - intros cs Hbal.
    apply (run_timer_balanced i measureName startMarkName endMarkName cs w0 0 Hfresh);
      [lia | exact Hbal].
  - intros cs c w' Hc Hc0 Hbal.
    apply (run_timer_balanced i measureName startMarkName endMarkName cs w' c Hc Hc0 Hbal).
Qed.

(** *** Iterating over the measures *)

Lemma world_after_never_enabled (cs : list Call) :
  CallEnable ∉ cs → never_enabled (world_after E cs).
Proof.
  intros Hcs. refine (run_preserves E never_enabled cs _ initial_world _).
  - intros c Hc. apply call_never_enabled. intros ->. exact (Hcs Hc).
  - unfold never_enabled, on_data. cbn. auto.
Qed.

Lemma run_initialized (cs : list Call) :
  ∀ w w', initialized w ∨ CallEnable ∈ cs →
          run E cs w = (Normal tt, w') → initialized w'.
Proof.
  unfold run. induction cs as [|c cs IH]; intros w w' Hinit Hrun.
  - injection Hrun as <-. destruct Hinit as [H|H]; [exact H|].
    apply not_elem_of_nil in H. contradiction.
  - cbn [map sequence_] in Hrun. rewrite bind_eq in Hrun.
    destruct (call E c w) as [[[]|ex] w1] eqn:Hcall; [|discriminate].
    apply (IH w1 w'); [|exact Hrun].
    destruct Hinit as [H|H].
    + left. pose proof (call_initialized E c w H) as H1. rewrite Hcall in H1. exact H1.
    + apply elem_of_cons in H. destruct H as [<-|H]; [|right; exact H].
      left. pose proof (enable_initialized E w) as H1. cbn [call] in Hcall.
      rewrite Hcall in H1. exact H1.
Qed.

(** The entries of a [Map] whose keys are kept in order. *)
Lemma map_entries_keys (m : gmap string num) (order : list string) :
  (∀ k, k ∈ order → is_Some (m !! k)) → (map_entries m order).*1 = order.
Proof.
  unfold map_entries. induction order as [|k order IH]; intros H; [reflexivity|].
  destruct (H k) as [v Hv]; [apply list_elem_of_here|].
  cbn. rewrite Hv. cbn. f_equal. apply IH. intros k' Hk'. apply H.
  apply list_elem_of_further, Hk'.
Qed.

Lemma elem_of_map_entries (m : gmap string num) (order : list string) k v :
  (k, v) ∈ map_entries m order ↔ k ∈ order ∧ m !! k = Some v.
Proof.
  unfold map_entries. rewrite list_elem_of_omap. split.
  - intros (k' & Hk' & Hf). destruct (m !! k') as [v'|] eqn:Hv; [|discriminate].
    cbn in Hf. injection Hf as <- <-. auto.
  - intros [Hk Hv]. exists k. split; [exact Hk|]. rewrite Hv. reflexivity.
Qed.

Lemma measures_set_ordered key value w :
  ordered w → ordered (with_fac (measures_set key value) w).
Proof.
  unfold ordered. cbn. destruct (measures (fac w)) as [m|]; [|auto]. cbn.
  intros [Hnd Hdom]. destruct (decide (is_Some (m !! key))) as [Hin|Hout].
  - split; [exact Hnd|]. intros k. rewrite Hdom.
    destruct (decide (key = k)) as [<-|Hne].
    + rewrite lookup_insert_eq. split; [eauto | intros _; exact Hin].
    + rewrite lookup_insert_ne by exact Hne. reflexivity.
  - split.
    + apply NoDup_app. split; [exact Hnd|]. split; [|apply NoDup_singleton].
      intros k Hk Hk'. apply list_elem_of_singleton in Hk'. subst k.
      apply Hout, Hdom, Hk.
    + intros k. rewrite elem_of_app, list_elem_of_singleton, Hdom.
      destruct (decide (key = k)) as [<-|Hne].
      * rewrite lookup_insert_eq. split; [eauto | intros _; right; reflexivity].
      * rewrite lookup_insert_ne by exact Hne. split; [|auto].
        intros [H|H]; [exact H | congruence].
Qed.

Lemma measures_renew_ordered w : ordered (measures_renew w).
Proof.
  unfold ordered. cbn. split; [apply NoDup_nil; reflexivity|].
  intros k. rewrite lookup_empty. split.
  - intros H. apply not_elem_of_nil in H. contradiction.
  - intros [v Hv]. discriminate Hv.
Qed.

Lemma call_ordered (c : Call) : preserves ordered (call E c).
Proof.
  destruct c as [| | | | | | | | | |? ? ? ? []];
    unfold_ops; repeat preserves_step;
    first
      [ leaf
      | apply preserves_modify; intros w _; apply measures_renew_ordered
      | apply preserves_modify; intros w Hw; apply measures_set_ordered, Hw ].
Qed.

Lemma world_after_ordered (cs : list Call) : ordered (world_after E cs).
Proof.
  exact (run_preserves E ordered cs (λ c _, call_ordered c) initial_world I).
Qed.

(** A walk whose callback leaves the entries of the walked [Map] as they
    are visits the entries that are left, in order, and ends. *)
Lemma forEach_from_fixed (cb : string → num → M unit) (obj : nat)
    (entries : list (string * num)) :
  (∀ name d, preserves (λ w, object_entries obj w = entries) (cb name d)) →
  ∀ fuel index w,
  object_entries obj w = entries → (length entries - index < fuel)%nat →
  forEach_from fuel cb obj index w =
  (sequence_ (map (λ kv, cb kv.1 kv.2) (drop index entries)) ;; mret (Some tt)) w.
Proof.
  intros Hcb. induction fuel as [|fuel IH]; intros index w Hw Hfuel; [lia|].
  cbn [forEach_from]. rewrite bind_eq. unfold gets at 1. cbv beta iota. rewrite Hw.
  destruct (entries !! index) as [[key value]|] eqn:Hentry.
  - rewrite (drop_S _ _ _ Hentry). cbn [map sequence_ fst snd].
    rewrite !bind_eq. specialize (Hcb key value w Hw).
    destruct (cb key value w) as [[[]|ex] w1]; [|reflexivity].
    cbn [snd] in Hcb. rewrite (IH (S index) w1 Hcb).
    + rewrite bind_eq. reflexivity.
    + apply lookup_lt_Some in Hentry. lia.
  - apply lookup_ge_None in Hentry. rewrite drop_ge by exact Hentry. reflexivity.
Qed.

(** C10: as long as [enable()] has never been called, [forEachMeasure]
    throws a [TypeError] on the undefined [measures], whereas [getCount]
    and [getDuration] return 0.  Once a program that calls [enable()] has
    run, enabled or disabled at its end, [measures] has its entries in the
    order in which it keeps its keys: each recorded measure occurs once
    among them, with its accumulated duration, which is the one that
    [getDuration] returns; and [forEachMeasure(cb)] runs [cb] on these
    entries in turn and ends, for a callback whose calls leave the entries
    of that [Map] as they are. *)
Theorem forEachMeasure_needs_enable (cs : list Call) (cb : string → num → M unit)
    (fuel : nat) :
  let w := world_after E cs in
  (CallEnable ∉ cs →
     forEachMeasure fuel cb w = (Thrown TypeError, w)
     ∧ (∀ name, getCount name w = (Normal (Q2Qc 0), w))
     ∧ (∀ name, getDuration name w = (Normal (Q2Qc 0), w)))
  ∧ (CallEnable ∈ cs → (run E cs initial_world).1 = Normal tt →
     ∃ (ms : gmap string num) (entries : list (string * num)),
       measures (fac w) = Some ms
       ∧ entries = measures_entries (fac w)
       ∧ entries.*1 = measuresOrder (fac w)
       ∧ NoDup entries.*1
       ∧ (∀ name d, (name, d) ∈ entries ↔ ms !! name = Some d)
       ∧ (∀ name d, (name, d) ∈ entries → getDuration name w = (Normal d, w))
       ∧ ((∀ name d,
             preserves (λ w1, object_entries (length (retired w)) w1 = entries)
               (cb name d)) →
          (length entries < fuel)%nat →
          forEachMeasure fuel cb w =
          (sequence_ (map (λ kv, cb kv.1 kv.2) entries) ;; mret (Some tt)) w)).
Proof.
  intros w. split.
  - intros Hcs. destruct (world_after_never_enabled cs Hcs) as (_ & Hc & _ & Hm).
    fold w in Hc, Hm. split; [|split].
    + unfold forEachMeasure. run_m. rewrite Hm. reflexivity.
    + intros name. rewrite getCount_eq, Hc. reflexivity.
    + intros name. rewrite getDuration_eq, Hm. reflexivity.
  - intros Hcs Hrun.
    assert (Hinit : initialized w).
    { apply (run_initialized cs initial_world w (or_intror Hcs)).
      unfold w, world_after. destruct (run E cs initial_world) as [o w1].
      cbn [fst snd] in *. rewrite Hrun. reflexivity. }
    destruct Hinit as (_ & _ & [ms Hms]).
    pose proof (world_after_ordered cs) as Hord. fold w in Hord.
    unfold ordered in Hord. rewrite Hms in Hord. destruct Hord as [Hnd Hdom].
    assert (Hentries : measures_entries (fac w) = map_entries ms (measuresOrder (fac w))).
    { unfold measures_entries. rewrite Hms. reflexivity. }
    assert (Hkeys : (measures_entries (fac w)).*1 = measuresOrder (fac w)).
    { rewrite Hentries. apply map_entries_keys. intros k Hk. apply Hdom, Hk. }
    assert (Hin : ∀ name d, (name, d) ∈ measures_entries (fac w) ↔ ms !! name = Some d).
    { intros name d. rewrite Hentries, elem_of_map_entries. split; [intros [_ H]; exact H|].
      intros H. split; [apply Hdom; eauto | exact H]. }
    exists ms, (measures_entries (fac w)).
    split; [exact Hms|]. split; [reflexivity|]. split; [exact Hkeys|].
    split; [rewrite Hkeys; exact Hnd|]. split; [exact Hin|]. split.
    + intros name d Hd. apply Hin in Hd.
      rewrite getDuration_eq, Hms. cbn. rewrite Hd. reflexivity.
    + intros Hcb Hfuel. unfold forEachMeasure. rewrite bind_eq.
      unfold the_map at 1. run_m. rewrite Hms.
      rewrite (forEach_from_fixed cb (length (retired w)) (measures_entries (fac w)) Hcb
                 fuel 0%nat w).
      * reflexivity.
      * unfold object_entries. rewrite decide_True by reflexivity. reflexivity.
      * lia.
Qed.

(** A walk visits the entries in the order of their first insertion, not
    in the order of the keys. *)
Example forEachMeasure_in_insertion_order :
  let w := world_after stepEnv
             [CallEnable; CallMeasure "zeta" None None; CallMeasure "alpha" None None;
              CallMeasure "m" None None; CallMeasure "alpha" None None] in
  (forEachMeasure 4 (λ name _, console_log name) w).1 = Normal (Some tt)
  ∧ stdout (host (forEachMeasure 4 (λ name _, console_log name) w).2)
    = ["zeta"; "alpha"; "m"].
Proof. split; vm_compute; reflexivity. Qed.

(** A walk is on the live [Map]: an entry that the callback adds is
    visited as well. *)
Example forEachMeasure_visits_added_entries :
  let w := world_after stepEnv [CallEnable; CallMeasure "m" None None] in
  let cb := λ (name : string) (_ : num),
    (if String.eqb name "m" then measure stepEnv "mx" None None else mret tt) ;;
    console_log name in
  (forEachMeasure 3 cb w).1 = Normal (Some tt)
  ∧ stdout (host (forEachMeasure 3 cb w).2) = ["m"; "mx"].
Proof. split; vm_compute; reflexivity. Qed.

(** A walk stays on the [Map] it began with: after an [enable()] by the
    callback it goes on over the old entries, and the new [Map] is empty. *)
Example forEachMeasure_walks_the_replaced_map :
  let w := world_after stepEnv
             [CallEnable; CallMeasure "a" None None; CallMeasure "b" None None] in
  let cb := λ (name : string) (_ : num), enable stepEnv ;; console_log name in
  (forEachMeasure 3 cb w).1 = Normal (Some tt)
  ∧ stdout (host (forEachMeasure 3 cb w).2) = ["a"; "b"]
  ∧ measures_entries (fac (forEachMeasure 3 cb w).2) = [].
Proof. repeat split; vm_compute; reflexivity. Qed.

(** A walk whose callback adds an entry at each call does not end within
    the steps it is given. *)
Example forEachMeasure_out_of_fuel :
  let w := world_after stepEnv [CallEnable; CallMeasure "m" None None] in
  (forEachMeasure 3 (λ name _, measure stepEnv (name +:+ "x") None None) w).1
  = Normal None.
Proof. vm_compute. reflexivity. Qed.

(** *** Resolving the timestamps of a measure *)

(** Where every name is non-empty and every recorded timestamp is not 0,
    [measure] resolves its two timestamps as the specification says. *)
Lemma truthy_mark_recorded ms name fallback :
  (∀ n, name = Some n → n ≠ EmptyString ∧ ∀ v, ms !! n = Some v → v ≠ Q2Qc 0) →
  default fallback (truthy_mark ms name) = recorded_or ms name fallback.
Proof.
  intros H. unfold truthy_mark, recorded_or. destruct name as [n|]; [|reflexivity].
  destruct (H n eq_refl) as [Hn Hv]. cbn. unfold truthy_string.
  rewrite bool_decide_eq_true_2 by exact Hn.
  destruct (ms !! n) as [v|]; [|reflexivity]. cbn. unfold truthy_num.
  rewrite bool_decide_eq_true_2 by (apply Hv; reflexivity). reflexivity.
Qed.

Lemma measure_span_recorded s e w ms :
  marks (fac w) = Some ms →
  (∀ n, s = Some n ∨ e = Some n →
        n ≠ EmptyString ∧ ∀ v, ms !! n = Some v → v ≠ Q2Qc 0) →
  (measure_span E s e w).1 =
  Normal (recorded_or ms e (timestamp_at E (clockReads (host w)))
          - recorded_or ms s (profilerStart (fac w)))%Qc.
Proof.
  intros Hms H. rewrite (measure_span_eq E s e w ms Hms). cbn [fst].
  unfold end_timestamp, start_timestamp.
  rewrite !truthy_mark_recorded by (intros n Hn; apply H; auto). reflexivity.
Qed.

End Claims.

(** ** The statements at concrete inputs *)

(** C3: the end mark is supplied and recorded, at timestamp 0, which is
    what a clock of coarse resolution returns right after its origin.  The
    specification resolves the end timestamp to that 0 and the span to 0;
    [measure] takes the recorded 0 for no mark at all, reads the clock
    instead, and adds 7 to the measure. *)
Theorem measure_skips_end_mark_recorded_at_zero :
  let w := world_after coarseEnv [CallEnable; CallMark "end"] in
  ∃ ms : gmap string num,
    marks (fac w) = Some ms
    ∧ ms !! "end" = Some (num_of_Z 0)
    ∧ profilerStart (fac w) = num_of_Z 0
    ∧ recorded_or ms (Some "end") (timestamp_at coarseEnv (clockReads (host w))) = num_of_Z 0
    ∧ (∃ d wa, measure_span coarseEnv None (Some "end") w = (Normal d, wa)
               ∧ d = num_of_Z 7)
    ∧ (∃ d w', getDuration "span" (measure coarseEnv "span" None (Some "end") w).2
               = (Normal d, w')
               ∧ d = num_of_Z 7).
Proof.
  intros w. eexists. split; [reflexivity|].
  split; [reflexivity|]. split; [reflexivity|]. split; [reflexivity|].
  split; (eexists _, _; split; [reflexivity|]); apply Qc_is_canon; reflexivity.
Qed.

Lemma mark_while_disabled_changes_nothing_witness :
  let w := world_after demoEnv [CallEnable; CallMark "a"; CallDisable] in
  enabled (fac w) = false ∧ mark demoEnv "a" w = (Normal tt, w).
Proof.
  intros w. split; [reflexivity|].
  apply (mark_while_disabled_changes_nothing demoEnv "a" w). reflexivity.
Defined.

Lemma logSlowEvent_threshold_witness :
  (∀ k, (Q2Qc 0 ≤ Math_random_at demoEnv k)%Qc ∧ (Math_random_at demoEnv k < Q2Qc 1)%Qc)
  ∧ logSlowEvent demoEnv "check" (num_of_Z 10) JsUndefined initial_world
    = (Normal tt, initial_world)
  ∧ stdout (host (logSlowEvent demoEnv "check" (Q2Qc (1001 # 100)) JsUndefined
                    initial_world).2)
    ≠ stdout (host initial_world).
Proof.
  assert (Hrandom : ∀ k, (Q2Qc 0 ≤ Math_random_at demoEnv k)%Qc
                         ∧ (Math_random_at demoEnv k < Q2Qc 1)%Qc).
  { intros k. split; [discriminate | reflexivity]. }
  split; [exact Hrandom|].
  apply (logSlowEvent_threshold demoEnv "check" (num_of_Z 10) JsUndefined initial_world Hrandom).
Defined.

Lemma measure_accumulates_witness :
  let w := world_after demoEnv [CallEnable] in
  (enabled (fac w) = true ∧ marks (fac w) = Some ∅ ∧ measures (fac w) = Some ∅)
  ∧ ∃ d1 d2 wa w1 wb w2,
      measure_span demoEnv None None w = (Normal d1, wa)
      ∧ measure demoEnv "m" None None w = (Normal tt, w1)
      ∧ measure_span demoEnv None None w1 = (Normal d2, wb)
      ∧ measure demoEnv "m" None None w1 = (Normal tt, w2)
      ∧ getDuration "m" w2 = (Normal (d1 + d2)%Qc, w2).
Proof.
  intros w. split; [repeat split|].
  destruct (measure_accumulates demoEnv "m" None None None None w ∅ ∅ eq_refl eq_refl eq_refl)
    as (d0 & d1 & d2 & wa & w1 & wb & w2 & _ & H1 & H2 & H3 & H4 & _ & _ & H5).
  exists d1, d2, wa, w1, wb, w2. repeat (split; [assumption|]).
  apply H5. reflexivity.
Defined.

Lemma timer_records_on_outermost_calls_witness :
  let w := world_after demoEnv [CallEnable] in
  let t := timer_object demoEnv 0 "m" "s" "e" in
  let w0 := with_cells (λ l, l ++ [0]) w in
  ∃ w1, (enter t ;; enter t ;; exit t) w0 = (Normal tt, w1)
    ∧ cells w1 !! 0%nat = Some 1
    ∧ profilerCalls (host w1) = ["s"]
    ∧ profilerCalls (host (exit t w1).2) = ["s"; "e"]
    ∧ exit t w1 =
        (mark demoEnv "e" ;; measure demoEnv "m" (Some "s") (Some "e"))
          (with_cells (<[0%nat := 0]>) w1).
Proof.
  intros w t w0.
  destruct (timer_records_on_outermost_calls demoEnv "m" "s" "e" w)
    as (_ & Hfresh & Hzero & _).
  destruct (Hzero w0 Hfresh) as [Hseq Hnext].
  assert (Hrun : (enter t ;; enter t ;; exit t) w0 = (Normal tt, (enter t w0).2)).
  { rewrite (Hseq : (enter t ;; enter t ;; exit t) w0 = enter t w0).
    assert (H : (enter t w0).1 = Normal tt) by (vm_compute; reflexivity).
    destruct (enter t w0) as [o w1]. cbn [fst snd] in *. rewrite H. reflexivity. }
  exists (enter t w0).2. split; [exact Hrun|].
  destruct (Hnext _ Hrun) as [Hcell Hexit].
  split; [exact Hcell|]. split; [vm_compute; reflexivity|].
  split; [vm_compute; reflexivity | exact Hexit].
Defined.

Lemma exit_without_enter_fails_witness :
  let w := world_after demoEnv [CallEnable] in
  let t := timer_object demoEnv 0 "m" "s" "e" in
  let w0 := with_cells (λ l, l ++ [0]) w in
  (balanced [Enter; Enter; Exit; Exit] = true ∧ well_formed w)
  ∧ ∃ w1, run_timer t [Enter; Enter; Exit; Exit] w0 = (Normal tt, w1).
Proof.
  intros w t w0.
  assert (Hwf : well_formed w) by (intros _; cbn; eauto).
  split; [split; [reflexivity | exact Hwf]|].
  apply (exit_without_enter_fails demoEnv "m" "s" "e" w); [reflexivity | exact Hwf].
Defined.

Lemma forEachMeasure_needs_enable_witness :
  let never := [CallDisable; CallMark "a"] in
  let once := [CallEnable; CallMeasure "zeta" None None; CallMeasure "alpha" None None;
               CallDisable] in
  let w := world_after stepEnv once in
  ((CallEnable ∉ never)
   ∧ forEachMeasure 5 (λ name _, console_log name) (world_after stepEnv never)
     = (Thrown TypeError, world_after stepEnv never))
  ∧ ((CallEnable ∈ once)
     ∧ (run stepEnv once initial_world).1 = Normal tt
     ∧ (∀ (name : string) (d : num),
          preserves (λ w1, object_entries (length (retired w)) w1 = measures_entries (fac w))
            (console_log name))
     ∧ (length (measures_entries (fac w)) < 5)%nat
     ∧ forEachMeasure 5 (λ name _, console_log name) w
       = (sequence_ (map (λ kv, console_log kv.1) (measures_entries (fac w)))
          ;; mret (Some tt)) w
     ∧ stdout (host (forEachMeasure 5 (λ name _, console_log name) w).2)
       = ["zeta"; "alpha"]).
Proof.
  intros never once w.
  assert (Hnever : CallEnable ∉ never).
  { intros H. apply elem_of_cons in H as [H|H]; [discriminate|].
    apply elem_of_cons in H as [H|H]; [discriminate|].
    apply not_elem_of_nil in H. exact H. }
  assert (Honce : CallEnable ∈ once) by apply list_elem_of_here.
  assert (Hcb : ∀ (name : string) (d : num),
            preserves (λ w1, object_entries (length (retired w)) w1
                             = measures_entries (fac w))
              (console_log name)).
  { intros name _ w1 Hw1. exact Hw1. }
  assert (Hfuel : (length (measures_entries (fac w)) < 5)%nat) by (vm_compute; lia).
  split.
  - split; [exact Hnever|].
    apply (forEachMeasure_needs_enable stepEnv never (λ name _, console_log name) 5).
    exact Hnever.
  - split; [exact Honce|]. split; [reflexivity|]. split; [exact Hcb|]. split; [exact Hfuel|].
    destruct (proj2 (forEachMeasure_needs_enable stepEnv once (λ name _, console_log name) 5)
                Honce eq_refl) as (ms & entries & _ & -> & _ & _ & _ & _ & Hwalk).
    split; [|vm_compute; reflexivity].
    apply Hwalk; [intros name d; apply Hcb; exact d | exact Hfuel].
Defined.

(** * Further properties of the module *)

Section Further.

Variable E : Env.

(** ** Marks on an enabled facility *)

Lemma profilerEvent_calls markName w :
  ∃ w', profilerEvent E markName w = (Normal tt, w')
    ∧ fac w' = fac w ∧ cells w' = cells w
    ∧ stdout (host w') = stdout (host w)
    ∧ clockReads (host w') = clockReads (host w)
    ∧ randomReads (host w') = randomReads (host w)
    ∧ dateReads (host w') = dateReads (host w)
    ∧ profilerCalls (host w') =
        profilerCalls (host w) ++ (if hook_active E then [markName] else []).
Proof.
  unfold profilerEvent, hook_active.
  destruct (onProfilerEvent E) as [[]|]; eexists; (split; [reflexivity|]);
    cbn; rewrite ?app_nil_r; auto 10.
Qed.

(** One [mark] on an enabled facility, in full. *)
Lemma mark_step markName w ms cs :
  enabled (fac w) = true → marks (fac w) = Some ms → counts (fac w) = Some cs →
  ∃ w', mark E markName w = (Normal tt, w')
    ∧ enabled (fac w') = true
    ∧ marks (fac w') = Some (<[markName := timestamp_at E (clockReads (host w))]> ms)
    ∧ counts (fac w') =
        Some (<[markName := (default (Q2Qc 0) (cs !! markName) + num_of_Z 1)%Qc]> cs)
    ∧ measures (fac w') = measures (fac w)
    ∧ profilerStart (fac w') = profilerStart (fac w)
    ∧ logDepth (fac w') = logDepth (fac w)
    ∧ isFirstLogEvent (fac w') = isFirstLogEvent (fac w)
    ∧ cells w' = cells w
    ∧ stdout (host w') = stdout (host w)
    ∧ clockReads (host w') = S (clockReads (host w))
    ∧ profilerCalls (host w') =
        profilerCalls (host w) ++ (if hook_active E then [markName] else []).
Proof.
  intros Hon Hms Hcs. rewrite (mark_enabled E markName w ms cs Hon Hms Hcs).
  rewrite num_or_default.
  match goal with
  | |- context [profilerEvent E markName ?w1] =>
      destruct (profilerEvent_calls markName w1)
        as (w' & -> & Hfac & Hcells & Hout & Hclock & _ & _ & Hcalls)
  end.
  exists w'. split; [reflexivity|]. rewrite Hfac, Hcells, Hout, Hclock, Hcalls. cbn.
  rewrite Hon. auto 15.
Qed.

(** X1: on an enabled facility [mark(name)] returns, having read the clock
    once: it stores the timestamp read under the name, adds 1 to the count
    of the name, and calls the profiler hook with the name when there is an
    active one.  The timestamps and the counts of the other names, the
    measures and the output are as they were. *)
Theorem mark_records_one_hit (markName : string) (w : World)
    (ms cs : gmap string num) :
  enabled (fac w) = true → marks (fac w) = Some ms → counts (fac w) = Some cs →
  ∃ (w' : World) (ms' cs' : gmap string num),
    mark E markName w = (Normal tt, w')
    ∧ marks (fac w') = Some ms' ∧ counts (fac w') = Some cs'
    ∧ ms' !! markName = Some (timestamp_at E (clockReads (host w)))
    ∧ getCount markName w' =
        (Normal (default (Q2Qc 0) (cs !! markName) + num_of_Z 1)%Qc, w')
    ∧ (∀ other, other ≠ markName →
         ms' !! other = ms !! other ∧ (getCount other w').1 = (getCount other w).1)
    ∧ measures (fac w') = measures (fac w)
    ∧ stdout (host w') = stdout (host w)
    ∧ clockReads (host w') = S (clockReads (host w))
    ∧ profilerCalls (host w') =
        profilerCalls (host w) ++ (if hook_active E then [markName] else []).
Proof.
  intros Hon Hms Hcs.
  destruct (mark_step markName w ms cs Hon Hms Hcs)
    as (w' & Hrun & _ & Hms' & Hcs' & Hm & _ & _ & _ & _ & Hout & Hclock & Hcalls).
  eexists w', _, _. split; [exact Hrun|]. split; [exact Hms'|]. split; [exact Hcs'|].
  split; [apply lookup_insert_eq|]. split.
  { rewrite getCount_eq, Hcs'. cbn. rewrite lookup_insert_eq. reflexivity. }
  split; [|auto].
  intros other Hother. split; [apply lookup_insert_ne; congruence|].
  rewrite !getCount_eq, Hcs', Hcs. cbn. rewrite lookup_insert_ne by congruence. reflexivity.
Qed.

Lemma occurrences_cons n x names :
  occurrences n (x :: names) =
  (if decide (x = n) then S (occurrences n names) else occurrences n names).
Proof. unfold occurrences. rewrite filter_cons. destruct (decide (x = n)); reflexivity. Qed.

(** X2: on an enabled facility a run of marks returns, and afterwards the
    count of every name is what it was plus the number of times the name
    was marked; the clock has been read once per mark, and an active
    profiler hook has been called with the names in order. *)
Theorem marks_count_occurrences (names : list string) :
  ∀ (w : World) (ms cs : gmap string num),
  enabled (fac w) = true → marks (fac w) = Some ms → counts (fac w) = Some cs →
  ∃ w', run E (map CallMark names) w = (Normal tt, w')
    ∧ (∀ n, getCount n w' =
            (Normal (default (Q2Qc 0) (cs !! n)
                     + num_of_Z (Z.of_nat (occurrences n names)))%Qc, w'))
    ∧ clockReads (host w') = (clockReads (host w) + length names)%nat
    ∧ profilerCalls (host w') =
        profilerCalls (host w) ++ (if hook_active E then names else [])
    ∧ measures (fac w') = measures (fac w)
    ∧ stdout (host w') = stdout (host w).
Proof.
  unfold run. induction names as [|x names IH]; intros w ms cs Hon Hms Hcs.
  - exists w. split; [reflexivity|]. split.
    { intros n. rewrite getCount_eq, Hcs. cbn.
      change (occurrences n []) with 0%nat. unfold num_of_Z.
      change (Z.of_nat 0) with 0. rewrite Z2Qc_inj_0, Qcplus_0_r. reflexivity. }
    cbn. rewrite Nat.add_0_r. destruct (hook_active E); rewrite ?app_nil_r; auto.
  - destruct (mark_step x w ms cs Hon Hms Hcs)
      as (w1 & Hrun & Hon1 & Hms1 & Hcs1 & Hm1 & _ & _ & _ & _ & Hout1 & Hclock1 & Hcalls1).
    destruct (IH w1 _ _ Hon1 Hms1 Hcs1) as (w' & Hrun' & Hcount & Hclock & Hcalls & Hm & Hout).
    exists w'. split.
    { cbn [map sequence_ call]. rewrite bind_eq, Hrun. exact Hrun'. }
    split.
    { intros n. rewrite Hcount. f_equal. f_equal. rewrite occurrences_cons.
      destruct (decide (x = n)) as [->|Hne].
      - rewrite lookup_insert_eq. cbn. rewrite Nat2Z.inj_succ, <- Z.add_1_l.
        unfold num_of_Z. rewrite Z2Qc_inj_add. ring.
      - rewrite lookup_insert_ne by exact Hne. reflexivity. }
    rewrite Hclock, Hclock1, Hcalls, Hcalls1, Hm, Hm1, Hout, Hout1. cbn [length].
    split; [lia|]. split; [|auto].
    destruct (hook_active E); rewrite <- ?app_assoc, ?app_nil_r; reflexivity.
Qed.

(** ** Recording on a disabled facility *)

Lemma recording_call_disabled (f : Facility) (h : Host) (c : Call) :
  enabled f = false → is_recording c = true →
  preserves (λ w, fac w = f ∧ host w = h) (call E c).
Proof.
  intros Hoff Hc.
  assert (Hmark : ∀ n, preserves (λ w, fac w = f ∧ host w = h) (mark E n)).
  { intros n w [Hf Hh]. rewrite mark_disabled by (rewrite Hf; exact Hoff). auto. }
  assert (Hmeasure : ∀ n s e, preserves (λ w, fac w = f ∧ host w = h) (measure E n s e)).
  { intros n s e w [Hf Hh]. rewrite measure_disabled by (rewrite Hf; exact Hoff). auto. }
  destruct c as [| | | | | | | | | |? ? ? ? []]; try discriminate Hc;
    unfold_timers;
    repeat first
      [ match goal with
        | |- preserves _ (mark _ _) => apply Hmark
        | |- preserves _ (measure _ _ _ _) => apply Hmeasure
        end
      | preserves_step ];
    leaf.
Qed.

(** X3: on a disabled facility every sequence of marks, measures, timer
    creations and timer calls leaves the module's variables and everything
    the host observes as they were, whether the sequence returns or ends in
    the failure of a timer: no data is recorded, the clock is not read, the
    hook is not called and nothing is written.  Every count and every
    duration therefore reads as before. *)
Theorem recording_while_disabled_is_free (cs : list Call) (w : World) :
  enabled (fac w) = false → forallb is_recording cs = true →
  let w' := (run E cs w).2 in
  fac w' = fac w ∧ host w' = host w
  ∧ (∀ n, (getCount n w').1 = (getCount n w).1)
  ∧ (∀ n, (getDuration n w').1 = (getDuration n w).1).
Proof.
  intros Hoff Hcs w'.
  assert (H : fac w' = fac w ∧ host w' = host w).
  { refine (run_preserves E (λ w1, fac w1 = fac w ∧ host w1 = host w) cs _ w (conj eq_refl eq_refl)).
    intros c Hc. apply recording_call_disabled; [exact Hoff|].
    rewrite forallb_forall in Hcs. apply Hcs, list_elem_of_In, Hc. }
  destruct H as [Hf Hh]. split; [exact Hf|]. split; [exact Hh|].
  split; intros n; rewrite ?getCount_eq, ?getDuration_eq; cbn [fst]; rewrite Hf; reflexivity.
Qed.

(** ** The nesting depth *)

Lemma call_logDepth (c : Call) (w : World) :
  logDepth (fac (call E c w).2) = logDepth (fac w) + depth_of c.
Proof.
  assert (H : ∀ d, depth_of c = 0 →
            preserves (λ w1, logDepth (fac w1) = d) (call E c)).
  { intros d Hc.
    destruct c as [| | | | | | | | | |? ? ? ? []]; try discriminate Hc;
      unfold_ops; repeat preserves_step; leaf. }
  destruct (decide (depth_of c = 0)) as [H0|H0].
  - rewrite H0, Z.add_0_r. apply (H _ H0 w eq_refl).
  - destruct c; try (exfalso; apply H0; reflexivity); cbn; lia.
Qed.

Lemma increase_decrease_logDepth (w : World) :
  (increaseLogDepth ;; decreaseLogDepth) w = (Normal tt, w).
Proof.
  destruct w as [[] h l]. unfold increaseLogDepth, decreaseLogDepth. run_m.
  f_equal. unfold with_fac, set_logDepth. cbn. do 2 f_equal. lia.
Qed.

(** X4: the nesting depth moves only with [increaseLogDepth] and
    [decreaseLogDepth]: after a program that returns it is what it was,
    plus the number of increases, minus the number of decreases, however
    often the facility was enabled or disabled in between, and it may go
    below 0.  An increase followed by a decrease leaves every world as it
    was. *)
Theorem logDepth_counts_nesting (cs : list Call) :
  ∀ (w w' : World),
  run E cs w = (Normal tt, w') →
  logDepth (fac w') = logDepth (fac w) + depth_change cs
  ∧ (∀ w0, (increaseLogDepth ;; decreaseLogDepth) w0 = (Normal tt, w0)).
Proof.
  unfold run. induction cs as [|c cs IH]; intros w w' Hrun.
  - injection Hrun as <-. split; [cbn; lia | apply increase_decrease_logDepth].
  - cbn [map sequence_] in Hrun. rewrite bind_eq in Hrun.
    pose proof (call_logDepth c w) as Hc.
    destruct (call E c w) as [[[]|ex] w1]; [|discriminate].
    destruct (IH w1 w' Hrun) as (Hdepth & Hpair).
    split; [|exact Hpair].
    rewrite Hdepth. cbn [snd] in Hc. rewrite Hc. cbn [depth_change foldr].
    fold (depth_change cs). lia.
Qed.

(** ** Complete events *)

Lemma logTraceEvent_dateReads data w :
  dateReads (host (logTraceEvent E data w).2) = dateReads (host w).
Proof.
  assert (H : preserves (λ w1, dateReads (host w1) = dateReads (host w))
                (logTraceEvent E data)) by frame.
  exact (H w eq_refl).
Qed.

(** X5: [logCompleteEvent] has no threshold: whatever the duration, it
    returns, having read the wall clock once and written one record line
    (after the opening bracket, if it is the first event).  In the record
    the thread id is the current nesting depth, the begin time is the
    wall-clock time less the duration, times 1000, the duration is the
    given one times 1000, and there is an [args] property exactly when the
    given [args] is truthy. *)
Theorem logCompleteEvent_writes_one_record (name : string) (durationMillis : num)
    (args : JsValue) (w : World) :
  let now := Date_now_at E (dateReads (host w)) in
  let record := event_record name durationMillis args (logDepth (fac w)) now in
  ∃ w' : World,
    logCompleteEvent E name durationMillis args w = (Normal tt, w')
    ∧ stdout (host w') =
        stdout (host w) ++ (if isFirstLogEvent (fac w) then ["["] else [])
          ++ [record_line E record]
    ∧ dateReads (host w') = S (dateReads (host w))
    ∧ js_prop "name" record = Some (JsString name)
    ∧ js_prop "tid" record = Some (JsNumber (num_of_Z (logDepth (fac w))))
    ∧ js_prop "ts" record = Some (JsNumber ((now - durationMillis) * num_of_Z 1000)%Qc)
    ∧ js_prop "dur" record = Some (JsNumber (durationMillis * num_of_Z 1000)%Qc)
    ∧ js_prop "args" record = (if js_truthy args then Some args else None).
Proof.
  intros now record. rewrite logCompleteEvent_eq.
  pose proof (logTraceEvent_eq E record (Date_now E w).2) as (w' & Hrun & Hout & _).
  pose proof (logTraceEvent_dateReads record (Date_now E w).2) as Hreads.
  rewrite Hrun in Hreads. cbn [snd] in Hreads.
  exists w'. split; [exact Hrun|]. split; [exact Hout|]. split; [exact Hreads|].
  do 4 (split; [reflexivity|]).
  unfold record, event_record. cbn. destruct (js_truthy args); reflexivity.
Qed.

(** ** Measures *)

Lemma truthy_mark_unrecorded ms name :
  (∀ n, name = Some n → n = EmptyString ∨ ms !! n = None) → truthy_mark ms name = None.
Proof.
  intros H. destruct name as [n|]; [|reflexivity].
  destruct (H n eq_refl) as [-> | Hn]; [reflexivity|].
  unfold truthy_mark. cbn. rewrite Hn. destruct (truthy_string n); reflexivity.
Qed.

Lemma measure_by_span name s e s' e' w :
  measure_span E s e w = measure_span E s' e' w →
  measure E name s e w = measure E name s' e' w.
Proof.
  intros H. unfold measure. rewrite !bind_eq. cbn.
  destruct (enabled (fac w)); [|reflexivity].
  rewrite !bind_eq, H. reflexivity.
Qed.

(** X6: a mark name that is empty, or under which no mark is recorded,
    counts as not supplied.  With such names for both ends [measure] reads
    the clock once and takes the span from [profilerStart] to the time
    read, and it does in every respect what [measure(name)] without mark
    names does. *)
Theorem measure_falls_back_without_marks (s e : option string) (w : World)
    (ms : gmap string num) :
  marks (fac w) = Some ms →
  (∀ n, s = Some n → n = EmptyString ∨ ms !! n = None) →
  (∀ n, e = Some n → n = EmptyString ∨ ms !! n = None) →
  measure_span E s e w =
    (Normal (timestamp_at E (clockReads (host w)) - profilerStart (fac w))%Qc, tick E w)
  ∧ (∀ name, measure E name s e w = measure E name None None w).
Proof.
  intros Hms Hs He.
  assert (Hspan : ∀ s' e', truthy_mark ms s' = None → truthy_mark ms e' = None →
            measure_span E s' e' w =
            (Normal (timestamp_at E (clockReads (host w)) - profilerStart (fac w))%Qc,
             tick E w)).
  { intros s' e' Hs' He'. rewrite (measure_span_eq E s' e' w ms Hms).
    unfold end_timestamp, start_timestamp. rewrite Hs', He'. reflexivity. }
  pose proof (Hspan s e (truthy_mark_unrecorded ms s Hs) (truthy_mark_unrecorded ms e He)) as H.
  split; [exact H|]. intros name. apply measure_by_span.
  rewrite H. symmetry. apply Hspan; reflexivity.
Qed.

Lemma logSlowEvent_footprint name d args w :
  clockReads (host (logSlowEvent E name d args w).2) = clockReads (host w)
  ∧ cells (logSlowEvent E name d args w).2 = cells w
  ∧ counts (fac (logSlowEvent E name d args w).2) = counts (fac w)
  ∧ marks (fac (logSlowEvent E name d args w).2) = marks (fac w)
  ∧ measures (fac (logSlowEvent E name d args w).2) = measures (fac w).
Proof.
  assert (H : preserves
            (λ w1, clockReads (host w1) = clockReads (host w) ∧ cells w1 = cells w
                   ∧ counts (fac w1) = counts (fac w) ∧ marks (fac w1) = marks (fac w)
                   ∧ measures (fac w1) = measures (fac w))
            (logSlowEvent E name d args)) by frame.
  apply (H w). auto.
Qed.

(** X7: on an enabled facility [measure] returns, and it writes to the
    output exactly when the span it has computed is greater than 10.  The
    line is then that of a complete event named after the measure, whose
    duration is the span.  The marks and the counts are as they were, and
    the clock is read only when the end mark does not resolve. *)
Theorem measure_logs_exactly_when_slow (measureName : string) (s e : option string)
    (w : World) (ms m : gmap string num) :
  enabled (fac w) = true → marks (fac w) = Some ms → measures (fac w) = Some m →
  ∃ (d : num) (wa w' : World),
    measure_span E s e w = (Normal d, wa)
    ∧ measure E measureName s e w = (Normal tt, w')
    ∧ (stdout (host w') ≠ stdout (host w) ↔ (num_of_Z 10 < d)%Qc)
    ∧ ((num_of_Z 10 < d)%Qc →
       ∃ rand : Z,
         stdout (host w') =
           stdout (host w) ++ (if isFirstLogEvent (fac w) then ["["] else [])
             ++ [record_line E
                   (event_record (measureName +:+ "-" +:+ pretty rand) d JsUndefined
                      (logDepth (fac w)) (Date_now_at E (dateReads (host w))))])
    ∧ marks (fac w') = marks (fac w)
    ∧ counts (fac w') = counts (fac w)
    ∧ clockReads (host w') =
        (clockReads (host w) + match truthy_mark ms e with Some _ => 0 | None => 1 end)%nat.
Proof.
  intros Hon Hms Hm.
  exists (end_timestamp E ms e w - start_timestamp ms s w)%Qc,
    (match truthy_mark ms e with Some _ => w | None => tick E w end).
  rewrite (measure_enabled E measureName s e w ms m Hon Hms Hm). cbv zeta.
  set (d := (end_timestamp E ms e w - start_timestamp ms s w)%Qc).
  match goal with
  | |- context [logSlowEvent E measureName d JsUndefined ?w1] => set (W := w1)
  end.
  assert (HW : stdout (host W) = stdout (host w)
               ∧ isFirstLogEvent (fac W) = isFirstLogEvent (fac w)
               ∧ logDepth (fac W) = logDepth (fac w)
               ∧ dateReads (host W) = dateReads (host w)
               ∧ marks (fac W) = marks (fac w) ∧ counts (fac W) = counts (fac w)
               ∧ clockReads (host W) =
                   (clockReads (host w)
                    + match truthy_mark ms e with Some _ => 0 | None => 1 end)%nat).
  { unfold W. destruct (truthy_mark ms e); cbn; repeat split; lia. }
  destruct HW as (Hout & Hfirst & Hdepth & Hdate & HWms & HWcs & Hclock).
  destruct (logSlowEvent_footprint measureName d JsUndefined W) as (Fclock & _ & Fcs & Fms & _).
  destruct (logSlowEvent_returns E measureName d JsUndefined W) as (w' & Hrun).
  rewrite Hrun in *. cbn [snd] in *. exists w'.
  split; [apply (measure_span_eq E s e w ms Hms)|]. split; [reflexivity|].
  rewrite Fms, Fcs, Fclock, HWms, HWcs, Hclock.
  assert (Hslow : (num_of_Z 10 < d)%Qc →
            ∃ rand : Z,
              stdout (host w') =
                stdout (host w) ++ (if isFirstLogEvent (fac w) then ["["] else [])
                  ++ [record_line E
                        (event_record (measureName +:+ "-" +:+ pretty rand) d JsUndefined
                           (logDepth (fac w)) (Date_now_at E (dateReads (host w))))]).
  { intros Hd.
    destruct (logSlowEvent_slow_output E measureName d JsUndefined W Hd) as (w2 & Hrun2 & Hout2).
    rewrite Hrun in Hrun2. injection Hrun2 as <-.
    eexists. rewrite Hout2, Hout, Hfirst, Hdepth, Hdate. reflexivity. }
  split; [|split; [exact Hslow | auto]].
  split.
  - intros Hne. destruct (decide (num_of_Z 10 < d)%Qc) as [Hd|Hd]; [exact Hd|].
    exfalso. apply Hne. rewrite (logSlowEvent_fast E _ _ _ W Hd) in Hrun.
    injection Hrun as <-. exact Hout.
  - intros Hd. destruct (Hslow Hd) as (rand & ->). intros Heq.
    rewrite <- (app_nil_r (stdout (host w))) in Heq at 2.
    apply app_inv_head in Heq. destruct (isFirstLogEvent (fac w)); discriminate Heq.
Qed.

(** ** A timer around a region *)

Lemma truthy_mark_recorded_here (ms : gmap string num) (n : string) (v : num) :
  n ≠ EmptyString → v ≠ Q2Qc 0 → ms !! n = Some v → truthy_mark ms (Some n) = Some v.
Proof.
  intros Hn Hv Hlook. unfold truthy_mark. cbn. unfold truthy_string.
  rewrite bool_decide_eq_true_2 by exact Hn. rewrite Hlook. cbn. unfold truthy_num.
  rewrite bool_decide_eq_true_2 by exact Hv. reflexivity.
Qed.

Lemma measure_keeps_counts measureName s e w :
  counts (fac (measure E measureName s e w).2) = counts (fac w).
Proof.
  assert (H : preserves (λ w1, counts (fac w1) = counts (fac w))
                (measure E measureName s e)) by frame.
  exact (H w eq_refl).
Qed.

(** An outermost [enter(); exit()] on an enabled facility: the span that
    is measured runs from the timestamp found under the start mark name
    after both marks are recorded to the time of the exit. *)
Lemma enter_exit_span i measureName s e w ms cs m :
  enabled (fac w) = true → marks (fac w) = Some ms → counts (fac w) = Some cs →
  measures (fac w) = Some m → cells w !! i = Some 0 →
  s ≠ EmptyString → e ≠ EmptyString →
  let t1 := timestamp_at E (clockReads (host w)) in
  let t2 := timestamp_at E (S (clockReads (host w))) in
  t1 ≠ Q2Qc 0 → t2 ≠ Q2Qc 0 →
  ∃ w',
    (createTimer_enter E i s ;; createTimer_exit E i measureName s e) w = (Normal tt, w')
    ∧ measures (fac w') =
        Some (<[measureName :=
                  (default (Q2Qc 0) (m !! measureName)
                   + (t2 - (if decide (s = e) then t2 else t1)))%Qc]> m)
    ∧ cells w' !! i = Some 0
    ∧ (∃ cs', counts (fac w') = Some cs'
         ∧ cs' !! e = Some (default (Q2Qc 0) (<[s := (default (Q2Qc 0) (cs !! s)
                                                          + num_of_Z 1)%Qc]> cs !! e)
                            + num_of_Z 1)%Qc
         ∧ (s ≠ e → cs' !! s = Some (default (Q2Qc 0) (cs !! s) + num_of_Z 1)%Qc)).
Proof.
  intros Hon Hms Hcs Hm Hcell Hs He t1 t2 Ht1 Ht2.
  rewrite bind_eq, (createTimer_enter_eq E i s w 0 Hcell).
  rewrite bool_decide_eq_true_2 by reflexivity.
  set (W0 := with_cells (<[i := 0 + 1]>) w).
  destruct (mark_step s W0 ms cs Hon Hms Hcs)
    as (w1 & -> & Hon1 & Hms1 & Hcs1 & Hm1 & _ & _ & _ & Hcells1 & _ & Hclock1 & _).
  assert (Hcell1 : cells w1 !! i = Some 1).
  { rewrite Hcells1. apply (lookup_with_cells_insert i 1 0 w Hcell). }
  rewrite (createTimer_exit_eq E i measureName s e w1 1 Hcell1).
  rewrite bool_decide_eq_true_2 by reflexivity.
  set (W1 := with_cells (<[i := 1 - 1]>) w1).
  rewrite bind_eq.
  destruct (mark_step e W1 _ _ Hon1 Hms1 Hcs1)
    as (w2 & -> & Hon2 & Hms2 & Hcs2 & Hm2 & _ & _ & _ & Hcells2 & _ & _ & _).
  change (clockReads (host W1)) with (clockReads (host w1)) in Hms2.
  rewrite Hclock1 in Hms2. change (clockReads (host W0)) with (clockReads (host w)) in Hms2.
  fold t1 t2 in Hms2.
  change (measures (fac W1)) with (measures (fac w1)) in Hm2.
  rewrite Hm1 in Hm2. change (measures (fac W0)) with (measures (fac w)) in Hm2.
  rewrite Hm in Hm2.
  destruct (measure_adds E measureName (Some s) (Some e) w2 _ m Hon2 Hms2 Hm2)
    as (d & wa & w' & _ & Hd & Hrun & _ & _ & Hm').
  pose proof (measure_cells E (λ l, l = cells w2) measureName (Some s) (Some e) w2 eq_refl)
    as Hcells'.
  pose proof (measure_keeps_counts measureName (Some s) (Some e) w2) as Hcounts.
  rewrite Hrun in Hcells', Hcounts. cbn [snd] in Hcells', Hcounts. unfold on_cells in Hcells'.
  cbv beta iota. rewrite Hrun. exists w'. split; [reflexivity|].
  split; [|split].
  - rewrite Hm'. do 3 f_equal. rewrite Hd. unfold end_timestamp, start_timestamp.
    rewrite (truthy_mark_recorded_here _ e t2 He Ht2 (lookup_insert_eq _ _ _)).
    destruct (decide (s = e)) as [->|Hne].
    + rewrite (truthy_mark_recorded_here _ e t2 He Ht2 (lookup_insert_eq _ _ _)). reflexivity.
    + rewrite (truthy_mark_recorded_here _ s t1 Hs Ht1); [reflexivity|].
      rewrite lookup_insert_ne by congruence. apply lookup_insert_eq.
  - rewrite Hcells', Hcells2. apply (lookup_with_cells_insert i 0 1 w1 Hcell1).
  - eexists. rewrite Hcounts. split; [exact Hcs2|]. split; [apply lookup_insert_eq|].
    intros Hne. rewrite lookup_insert_ne by congruence. apply lookup_insert_eq.
Qed.

(** X8: on an enabled facility, an outermost [enter(); exit()] of a timer
    with two different, non-empty mark names, at clock readings other than
    0, returns with the counter back at 0 and adds to the measure the time
    between the two readings: that of the exit minus that of the enter.
    Each of the two marks has been hit once more. *)
Theorem timer_measures_elapsed_time (i : nat) (measureName s e : string) (w : World)
    (ms cs m : gmap string num) :
  enabled (fac w) = true → marks (fac w) = Some ms → counts (fac w) = Some cs →
  measures (fac w) = Some m → cells w !! i = Some 0 →
  s ≠ e → s ≠ EmptyString → e ≠ EmptyString →
  timestamp_at E (clockReads (host w)) ≠ Q2Qc 0 →
  timestamp_at E (S (clockReads (host w))) ≠ Q2Qc 0 →
  let t := timer_object E i measureName s e in
  ∃ w', (enter t ;; exit t) w = (Normal tt, w')
    ∧ getDuration measureName w' =
        (Normal (default (Q2Qc 0) (m !! measureName)
                 + (timestamp_at E (S (clockReads (host w)))
                    - timestamp_at E (clockReads (host w))))%Qc, w')
    ∧ cells w' !! i = Some 0
    ∧ getCount s w' = (Normal (default (Q2Qc 0) (cs !! s) + num_of_Z 1)%Qc, w')
    ∧ getCount e w' = (Normal (default (Q2Qc 0) (cs !! e) + num_of_Z 1)%Qc, w').
Proof.
  intros Hon Hms Hcs Hm Hcell Hne Hs He Ht1 Ht2 t.
  destruct (enter_exit_span i measureName s e w ms cs m Hon Hms Hcs Hm Hcell Hs He Ht1 Ht2)
    as (w' & Hrun & Hm' & Hcell' & cs' & Hcs' & Hce & Hcs_s).
  exists w'. split; [exact Hrun|].
  rewrite (decide_False (P := s = e)) in Hm' by exact Hne.
  rewrite lookup_insert_ne in Hce by exact Hne.
  split; [|split; [exact Hcell'|split]].
  - rewrite getDuration_eq, Hm'. cbn. rewrite lookup_insert_eq. reflexivity.
  - rewrite getCount_eq, Hcs'. cbn. rewrite (Hcs_s Hne). reflexivity.
  - rewrite getCount_eq, Hcs'. cbn. rewrite Hce. reflexivity.
Qed.

(** X9: a timer whose start mark and end mark have the same name measures
    nothing: on an enabled facility, at clock readings other than 0, an
    outermost [enter(); exit()] returns, hits the mark twice and leaves the
    duration of the measure at the value it had, because the end mark has
    overwritten the start mark by the time the span is taken. *)
Theorem timer_with_one_mark_name_measures_nothing (i : nat) (measureName n : string)
    (w : World) (ms cs m : gmap string num) :
  enabled (fac w) = true → marks (fac w) = Some ms → counts (fac w) = Some cs →
  measures (fac w) = Some m → cells w !! i = Some 0 →
  n ≠ EmptyString →
  timestamp_at E (clockReads (host w)) ≠ Q2Qc 0 →
  timestamp_at E (S (clockReads (host w))) ≠ Q2Qc 0 →
  let t := timer_object E i measureName n n in
  ∃ w', (enter t ;; exit t) w = (Normal tt, w')
    ∧ (getDuration measureName w').1 = (getDuration measureName w).1
    ∧ getCount n w' =
        (Normal (default (Q2Qc 0) (cs !! n) + num_of_Z 1 + num_of_Z 1)%Qc, w').
Proof.
  intros Hon Hms Hcs Hm Hcell Hn Ht1 Ht2 t.
  destruct (enter_exit_span i measureName n n w ms cs m Hon Hms Hcs Hm Hcell Hn Hn Ht1 Ht2)
    as (w' & Hrun & Hm' & _ & cs' & Hcs' & Hce & _).
  exists w'. split; [exact Hrun|].
  rewrite (decide_True (P := n = n)) in Hm' by reflexivity.
  rewrite lookup_insert_eq in Hce. cbn in Hce.
  split.
  - rewrite !getDuration_eq, Hm', Hm. cbn. rewrite lookup_insert_eq. cbn.
    f_equal. ring.
  - rewrite getCount_eq, Hcs'. cbn. rewrite Hce. reflexivity.
Qed.

(** ** Several timers *)

Lemma call_timer_other_cell i j measureName s e (tc : TimerCall) w :
  i ≠ j →
  cells (call_timer (timer_object E i measureName s e) tc w).2 !! j = cells w !! j.
Proof.
  intros Hij.
  assert (H : preserves (on_cells (λ l, l !! j = cells w !! j))
                (call_timer (timer_object E i measureName s e) tc)).
  { destruct tc; unfold_timers;
      repeat first
        [ match goal with
          | |- preserves _ (mark _ _) => apply mark_cells
          | |- preserves _ (measure _ _ _ _) => apply measure_cells
          end
        | preserves_step ];
      (let w1 := fresh "w" in let Hw := fresh "Hw" in
       intros w1 Hw;
       first [ exact Hw
             | unfold on_cells in *; cbn; rewrite list_lookup_insert_ne by exact Hij;
               exact Hw ]). }
  exact (H w eq_refl).
Qed.

(** X10: two timers made by [createTimer] have counters of their own.  The
    second creation leaves the counter of every timer made before as it
    is, both new counters are 0, and no call on either timer, whatever its
    outcome, changes the counter of the other. *)
Theorem timers_have_their_own_counters
    (measureName1 s1 e1 measureName2 s2 e2 : string) (w : World) :
  ∃ (i1 i2 : nat) (w1 w2 : World),
    createTimer E measureName1 s1 e1 w = (Normal (timer_object E i1 measureName1 s1 e1), w1)
    ∧ createTimer E measureName2 s2 e2 w1
      = (Normal (timer_object E i2 measureName2 s2 e2), w2)
    ∧ i1 ≠ i2
    ∧ cells w !! i1 = None
    ∧ cells w2 !! i1 = Some 0 ∧ cells w2 !! i2 = Some 0
    ∧ (∀ j c, cells w !! j = Some c → cells w2 !! j = Some c)
    ∧ (∀ w' tc,
         cells (call_timer (timer_object E i2 measureName2 s2 e2) tc w').2 !! i1
         = cells w' !! i1
         ∧ cells (call_timer (timer_object E i1 measureName1 s1 e1) tc w').2 !! i2
           = cells w' !! i2).
Proof.
  exists (length (cells w)), (S (length (cells w))). eexists _, _.
  split; [reflexivity|]. split.
  { unfold createTimer. run_m. rewrite length_app. cbn [length].
    rewrite Nat.add_1_r. reflexivity. }
  split; [lia|]. split; [apply lookup_ge_None; lia|].
  cbn [cells with_cells]. split; [|split; [|split]].
  - rewrite <- app_assoc. apply list_lookup_middle. reflexivity.
  - apply list_lookup_middle. rewrite length_app. cbn. lia.
  - intros j c Hj. rewrite <- app_assoc. rewrite lookup_app_l by (eapply lookup_lt_Some, Hj).
    exact Hj.
  - intros w' tc. split; apply call_timer_other_cell; lia.
Qed.

(** ** No type error *)

Lemma call_returns_when_well_formed (c : Call) (w : World) :
  well_formed w →
  (call E c w).1 ≠ Thrown TypeError
  ∧ (is_exit c = false → (call E c w).1 = Normal tt).
Proof.
  intros Hwf.
  assert (Hmark : ∀ n w1, well_formed w1 → (mark E n w1).1 = Normal tt).
  { intros n w1 H1. destruct (mark_returns E n w1 H1) as (w2 & ->). reflexivity. }
  assert (Hboth : ∀ n s e w1, well_formed w1 →
            ((mark E e ;; measure E n (Some s) (Some e)) w1).1 = Normal tt).
  { intros n s e w1 H1. rewrite bind_eq.
    pose proof (call_well_formed E (CallMark e) w1 H1) as H2. cbn [call] in H2.
    destruct (mark_returns E e w1 H1) as (w2 & Hw2). rewrite Hw2 in *. cbn [snd] in H2.
    destruct (measure_returns E n (Some s) (Some e) w2 H2) as (w3 & ->). reflexivity. }
  destruct c as [| | n | n s e | | | n d a | n d a | d | n s e | i n s e []]; cbn [call is_exit].
  - split; [discriminate | reflexivity].
  - split; [discriminate | reflexivity].
  - rewrite (Hmark n w Hwf). split; [discriminate | reflexivity].
  - destruct (measure_returns E n s e w Hwf) as (w' & ->). split; [discriminate | reflexivity].
  - split; [discriminate | reflexivity].
  - split; [discriminate | reflexivity].
  - destruct (logSlowEvent_returns E n d a w) as (w' & ->). split; [discriminate | reflexivity].
  - rewrite logCompleteEvent_eq.
    match goal with
    | |- context [logTraceEvent E ?data ?w1] =>
        destruct (logTraceEvent_eq E data w1) as (w' & -> & _)
    end.
    split; [discriminate | reflexivity].
  - destruct (logTraceEvent_eq E d w) as (w' & -> & _). split; [discriminate | reflexivity].
  - split; [discriminate | reflexivity].
  - cbn [call_timer enter timer_object]. unfold createTimer_enter. run_m.
    destruct (bool_decide _).
    + rewrite Hmark by exact Hwf. split; [discriminate | reflexivity].
    + split; [discriminate | reflexivity].
  - cbn [call_timer exit timer_object]. unfold createTimer_exit. rewrite bind_eq.
    assert (Hpre : pre_decrement i w
                   = (Normal (default 0 (cells w !! i) - 1),
                      with_cells (<[i := default 0 (cells w !! i) - 1]>) w))
      by reflexivity.
    rewrite Hpre. cbv beta iota. split; [|discriminate].
    destruct (bool_decide _).
    + rewrite Hboth by exact Hwf. discriminate.
    + run_m. destruct (bool_decide _); cbn; discriminate.
Qed.

(** X11: the maps exist whenever the facility is enabled, in every world
    that a program reaches; so no program ends in a type error from the
    module's own calls: the only failure they have is that of a timer's
    [exit()], and a program without such a call returns. *)
Theorem programs_never_throw_a_type_error (cs : list Call) :
  ∀ w, well_formed w →
  well_formed (run E cs w).2
  ∧ (run E cs w).1 ≠ Thrown TypeError
  ∧ (forallb (λ c, negb (is_exit c)) cs = true → (run E cs w).1 = Normal tt).
Proof.
  unfold run. induction cs as [|c cs IH]; intros w Hwf.
  - split; [exact Hwf|]. split; [discriminate | reflexivity].
  - cbn [map sequence_ forallb]. rewrite bind_eq.
    pose proof (call_well_formed E c w Hwf) as Hwf1.
    destruct (call_returns_when_well_formed c w Hwf) as [Hte Hret].
    destruct (call E c w) as [[[]|ex] w1]; cbn [fst snd] in *.
    + destruct (IH w1 Hwf1) as (H1 & H2 & H3). split; [exact H1|]. split; [exact H2|].
      intros Hall. apply andb_true_iff in Hall. apply H3, Hall.
    + split; [exact Hwf1|]. split; [exact Hte|].
      intros Hall. apply andb_true_iff in Hall. destruct Hall as [Hc _].
      apply negb_true_iff in Hc. specialize (Hret Hc). discriminate Hret.
Qed.

(** ** Counts and timestamps *)

Lemma count_after_hit (x : option num) :
  (∀ v, x = Some v → (num_of_Z 1 ≤ v)%Qc) →
  (num_of_Z 1 ≤ default (Q2Qc 0) x + num_of_Z 1)%Qc.
Proof.
  intros H. rewrite <- (Qcplus_0_l (num_of_Z 1)) at 1.
  apply Qcplus_le_mono_r. destruct x as [v|]; cbn.
  - eapply Qcle_trans; [|apply H; reflexivity].
    unfold num_of_Z. rewrite <- Z2Qc_inj_0. apply (proj1 (Z2Qc_inj_le 0 1)). lia.
  - apply Qcle_refl.
Qed.

Lemma mark_tallied markName : preserves tallied (mark E markName).
Proof.
  intros w Hw. destruct (enabled (fac w)) eqn:Hon.
  - unfold tallied, on_data in Hw.
    destruct (counts (fac w)) as [c|] eqn:Hcs, (marks (fac w)) as [m|] eqn:Hms;
      try contradiction.
    + destruct Hw as [Hdom Hpos].
      destruct (mark_step markName w m c Hon Hms Hcs) as (w' & -> & _ & Hms' & Hcs' & _).
      unfold tallied, on_data. cbn [snd]. rewrite Hms', Hcs'. split.
      * rewrite !dom_insert_L, Hdom. reflexivity.
      * apply map_Forall_insert_2; [|exact Hpos].
        apply count_after_hit. intros v Hv. exact (Hpos markName v Hv).
    + unfold mark. run_m. rewrite Hon, Hms. cbn.
      unfold tallied, on_data. rewrite Hcs, Hms. exact I.
  - rewrite mark_disabled by exact Hon. exact Hw.
Qed.

Lemma call_tallied (c : Call) : preserves tallied (call E c).
Proof.
  destruct c as [| | | | | | | | | |? ? ? ? []].
  1: { intros w _. unfold tallied, on_data. cbn. split; [reflexivity | apply map_Forall_empty]. }
  all: unfold_timers; unfold measure, measure_span, name_and_mark, or_else, the_map;
    unfold_logs; unfold_trace;
    repeat first
      [ match goal with
        | |- preserves _ (mark _ _) => apply mark_tallied
        end
      | preserves_step ];
    leaf.
Qed.

(** X12: in every world that a program reaches, the names that have a
    count are the names that have a timestamp, and every count is at least
    1.  So [getCount(name)] is 0 exactly when no mark is recorded under the
    name, and at least 1 otherwise. *)
Theorem counts_follow_marks (cs : list Call) (n : string) :
  let w := world_after E cs in
  tallied w
  ∧ ∃ v, getCount n w = (Normal v, w)
      ∧ (v = Q2Qc 0 ↔ marks (fac w) ≫= (.!! n) = None)
      ∧ (v ≠ Q2Qc 0 → (num_of_Z 1 ≤ v)%Qc).
Proof.
  intros w.
  assert (Hw : tallied w).
  { exact (run_preserves E tallied cs (λ c _, call_tallied c) initial_world I). }
  split; [exact Hw|].
  assert (Hone : ¬ (num_of_Z 1 ≤ Q2Qc 0)%Qc).
  { unfold num_of_Z. rewrite <- Z2Qc_inj_0. intros H.
    apply (proj2 (Z2Qc_inj_le 1 0)) in H. lia. }
  exists (default (Q2Qc 0) (counts (fac w) ≫= (.!! n))).
  split; [apply getCount_eq|].
  unfold tallied, on_data in Hw.
  destruct (counts (fac w)) as [c|], (marks (fac w)) as [m|]; try contradiction; cbn.
  - destruct Hw as [Hdom Hpos].
    assert (Hiff : c !! n = None ↔ m !! n = None).
    { rewrite <- !not_elem_of_dom, Hdom. reflexivity. }
    destruct (c !! n) as [v|] eqn:Hc; cbn.
    + pose proof (Hpos n v Hc) as Hv. split.
      * split; [intros ->; contradiction|].
        intros Hm. apply Hiff in Hm. discriminate Hm.
      * intros _. exact Hv.
    + split; [|intros H; contradiction H; reflexivity].
      split; [intros _; apply Hiff; reflexivity | reflexivity].
  - split; [split; reflexivity|]. intros H. contradiction H. reflexivity.
Qed.

End Further.

(** ** The further properties at concrete inputs *)

Lemma mark_records_one_hit_witness :
  let w := world_after demoEnv [CallEnable] in
  (enabled (fac w) = true ∧ marks (fac w) = Some ∅ ∧ counts (fac w) = Some ∅)
  ∧ ∃ w', mark demoEnv "a" w = (Normal tt, w')
      ∧ getCount "a" w' = (Normal (Q2Qc 0 + num_of_Z 1)%Qc, w')
      ∧ profilerCalls (host w') = ["a"].
Proof.
  intros w. split; [repeat split|].
  destruct (mark_records_one_hit demoEnv "a" w ∅ ∅ eq_refl eq_refl eq_refl)
    as (w' & ms' & cs' & Hrun & _ & _ & _ & Hcount & _ & _ & _ & _ & Hcalls).
  exists w'. split; [exact Hrun|]. split; [exact Hcount | exact Hcalls].
Defined.

Lemma marks_count_occurrences_witness :
  let w := world_after demoEnv [CallEnable] in
  (enabled (fac w) = true ∧ marks (fac w) = Some ∅ ∧ counts (fac w) = Some ∅)
  ∧ ∃ w', run demoEnv (map CallMark ["a"; "b"; "a"]) w = (Normal tt, w')
      ∧ getCount "a" w' = (Normal (Q2Qc 0 + num_of_Z 2)%Qc, w')
      ∧ profilerCalls (host w') = ["a"; "b"; "a"].
Proof.
  intros w. split; [repeat split|].
  destruct (marks_count_occurrences demoEnv ["a"; "b"; "a"] w ∅ ∅ eq_refl eq_refl eq_refl)
    as (w' & Hrun & Hcount & _ & Hcalls & _).
  exists w'. split; [exact Hrun|]. split; [exact (Hcount "a") | exact Hcalls].
Defined.

Lemma recording_while_disabled_is_free_witness :
  let w := world_after demoEnv [CallEnable; CallMark "a"; CallDisable] in
  let cs := [CallMark "a"; CallMeasure "m" None None; CallCreateTimer "t" "s" "e";
             CallTimer 0 "t" "s" "e" Enter; CallTimer 0 "t" "s" "e" Exit;
             CallTimer 0 "t" "s" "e" Exit] in
  (enabled (fac w) = false ∧ forallb is_recording cs = true)
  ∧ fac (run demoEnv cs w).2 = fac w ∧ host (run demoEnv cs w).2 = host w.
Proof.
  intros w cs. split; [split; reflexivity|].
  destruct (recording_while_disabled_is_free demoEnv cs w eq_refl eq_refl) as (Hf & Hh & _).
  split; [exact Hf | exact Hh].
Defined.

Lemma logDepth_counts_nesting_witness :
  let cs := [CallIncreaseLogDepth; CallEnable; CallIncreaseLogDepth; CallDisable;
             CallDecreaseLogDepth; CallDecreaseLogDepth; CallDecreaseLogDepth] in
  run demoEnv cs initial_world = (Normal tt, world_after demoEnv cs)
  ∧ logDepth (fac (world_after demoEnv cs)) = 0 + depth_change cs.
Proof.
  intros cs. split; [reflexivity|].
  apply (logDepth_counts_nesting demoEnv cs initial_world (world_after demoEnv cs)).
  reflexivity.
Defined.

Lemma measure_falls_back_without_marks_witness :
  let w := world_after demoEnv [CallEnable; CallMark "a"] in
  ∃ ms, marks (fac w) = Some ms
    ∧ ms !! "b" = None
    ∧ measure demoEnv "m" (Some "b") (Some EmptyString) w = measure demoEnv "m" None None w.
Proof.
  intros w. eexists. split; [reflexivity|]. split; [reflexivity|].
  refine (proj2 (measure_falls_back_without_marks demoEnv (Some "b") (Some EmptyString) w _
                   eq_refl _ _) "m").
  - intros n [= <-]. right. reflexivity.
  - intros n [= <-]. left. reflexivity.
Defined.

Lemma measure_logs_exactly_when_slow_witness :
  let w := world_after demoEnv [CallEnable] in
  (enabled (fac w) = true ∧ marks (fac w) = Some ∅ ∧ measures (fac w) = Some ∅)
  ∧ ∃ d wa w',
      measure_span demoEnv None None w = (Normal d, wa)
      ∧ measure demoEnv "m" None None w = (Normal tt, w')
      ∧ (stdout (host w') ≠ stdout (host w) ↔ (num_of_Z 10 < d)%Qc).
Proof.
  intros w. split; [repeat split|].
  destruct (measure_logs_exactly_when_slow demoEnv "m" None None w ∅ ∅
              eq_refl eq_refl eq_refl) as (d & wa & w' & H1 & H2 & H3 & _).
  exists d, wa, w'. auto.
Defined.

Lemma timer_measures_elapsed_time_witness :
  let w := world_after demoEnv [CallEnable; CallCreateTimer "m" "s" "e"] in
  let t := timer_object demoEnv 0 "m" "s" "e" in
  (cells w !! 0%nat = Some 0 ∧ timestamp_at demoEnv (clockReads (host w)) ≠ Q2Qc 0)
  ∧ ∃ w', (enter t ;; exit t) w = (Normal tt, w')
      ∧ getDuration "m" w' =
          (Normal (Q2Qc 0 + (timestamp_at demoEnv 2 - timestamp_at demoEnv 1))%Qc, w').
Proof.
  intros w t.
  assert (H1 : timestamp_at demoEnv (clockReads (host w)) ≠ Q2Qc 0)
    by (intros H; discriminate (f_equal this H)).
  assert (H2 : timestamp_at demoEnv (S (clockReads (host w))) ≠ Q2Qc 0)
    by (intros H; discriminate (f_equal this H)).
  split; [split; [reflexivity | exact H1]|].
  destruct (timer_measures_elapsed_time demoEnv 0 "m" "s" "e" w ∅ ∅ ∅
              eq_refl eq_refl eq_refl eq_refl eq_refl) as (w' & Hrun & Hdur & _);
    [discriminate | discriminate | discriminate | exact H1 | exact H2 |].
  exists w'. split; [exact Hrun | exact Hdur].
Defined.

Lemma timer_with_one_mark_name_measures_nothing_witness :
  let w := world_after demoEnv [CallEnable; CallCreateTimer "m" "n" "n"] in
  let t := timer_object demoEnv 0 "m" "n" "n" in
  cells w !! 0%nat = Some 0
  ∧ ∃ w', (enter t ;; exit t) w = (Normal tt, w')
      ∧ (getDuration "m" w').1 = (getDuration "m" w).1.
Proof.
  intros w t. split; [reflexivity|].
  destruct (timer_with_one_mark_name_measures_nothing demoEnv 0 "m" "n" w ∅ ∅ ∅
              eq_refl eq_refl eq_refl eq_refl eq_refl) as (w' & Hrun & Hdur & _);
    [ discriminate
    | intros H; discriminate (f_equal this H)
    | intros H; discriminate (f_equal this H) |].
  exists w'. split; [exact Hrun | exact Hdur].
Defined.

Lemma programs_never_throw_a_type_error_witness :
  let cs := [CallMark "early"; CallEnable; CallMark "a"; CallMeasure "m" (Some "a") None;
             CallDisable; CallMeasure "m" None None] in
  well_formed initial_world
  ∧ forallb (λ c, negb (is_exit c)) cs = true
  ∧ (run demoEnv cs initial_world).1 = Normal tt.
Proof.
  intros cs.
  assert (Hwf : well_formed initial_world) by (intros H; discriminate H).
  split; [exact Hwf|]. split; [reflexivity|].
  apply (programs_never_throw_a_type_error demoEnv cs initial_world Hwf). reflexivity.
Defined.

